(** * TUDelft_ENVM1601: Central Basin Approach and heuristic RTC

    A shallow embedding of [ENVM1601_CentralBasinApproach.py] and
    [ENVM1601_Heuristics.py].

    Numbers.  Python numbers are modelled by exact rationals [Q]: the
    arithmetic is the ideal one, rounding is not modelled.  Comparisons
    are the boolean tests on [Q]; equalities between computed volumes are
    stated up to [Qeq] ([==]) where the two sides are built differently.

    Exceptions.  A Python call either returns a value or raises; the
    [result] type keeps the two apart, and binds are evaluated in the
    order Python evaluates the sub-expressions. *)

From Stdlib Require Import QArith Lqa ZArith Lia List String Ascii Bool.
From Stdlib Require Import Permutation.
From Stdlib Require Import Floats.
From Stdlib Require Uint63.
Import ListNotations.

(** ** Python values, exceptions and containers *)
Module Py.

Inductive exn : Type :=
| AttributeError (msg : string)
| IndexError
| KeyError
| ValueError
| TypeError
| EngineError.

Inductive result (A : Type) : Type :=
| Ok (a : A)
| Raise (e : exn).

Arguments Ok {A} a.
Arguments Raise {A} e.

Definition raises {A : Type} (r : result A) : Prop :=
  exists e, r = Raise e.

Definition of_option {A : Type} (e : exn) (o : option A) : result A :=
  match o with
  | Some a => Ok a
  | None => Raise e
  end.

(** [x < y] and [x > y] on numbers. *)
Definition Qltb (x y : Q) : bool := negb (Qle_bool y x).
Definition Qgtb (x y : Q) : bool := Qltb y x.

(** [min(a, b)]: the first argument unless the second is strictly smaller. *)
Definition py_min (a b : Q) : Q := if Qltb b a then b else a.

(** [l[i]] with Python's negative indices; out of range raises IndexError. *)
Definition py_index {A : Type} (l : list A) (i : Z) : result A :=
  let n := Z.of_nat (List.length l) in
  if (0 <=? i)%Z then of_option IndexError (nth_error l (Z.to_nat i))
  else if (- n <=? i)%Z then of_option IndexError (nth_error l (Z.to_nat (n + i)))
  else Raise IndexError.

(** *** Strings (ASCII: a byte above 127 is neither a space nor a capital) *)

(** [str.isspace] on one character: tab to carriage return, the four
    separators 28 to 31, and the space. *)
Definition is_space (c : ascii) : bool :=
  let n := nat_of_ascii c in
  ((9 <=? n)%nat && (n <=? 13)%nat) || ((28 <=? n)%nat && (n <=? 32)%nat).

(** [s.split()]: the maximal runs of non-space characters, in order. *)
Fixpoint split_from (cur s : string) : list string :=
  match s with
  | EmptyString => match cur with EmptyString => [] | _ => [cur] end
  | String c s' =>
      if is_space c then
        match cur with
        | EmptyString => split_from EmptyString s'
        | _ => cur :: split_from EmptyString s'
        end
      else split_from (cur ++ String c EmptyString) s'
  end.

Definition split (s : string) : list string := split_from EmptyString s.

(** [sub in s] on strings: [sub] occurs in [s] as a contiguous run. *)
Fixpoint contains (sub s : string) : bool :=
  prefix sub s ||
  match s with
  | EmptyString => false
  | String _ s' => contains sub s'
  end.

Definition lower_ascii (c : ascii) : ascii :=
  let n := nat_of_ascii c in
  if ((65 <=? n)%nat && (n <=? 90)%nat) then ascii_of_nat (n + 32) else c.

(** [s.lower()]. *)
Fixpoint lower (s : string) : string :=
  match s with
  | EmptyString => EmptyString
  | String c s' => String (lower_ascii c) (lower s')
  end.

(** [x in l] for a list of strings. *)
Definition str_in (x : string) (l : list string) : bool :=
  existsb (String.eqb x) l.

(** [[c for c, x in enumerate(l) if p(x)]], counting from [i]. *)
Fixpoint indices_where {A : Type} (p : A -> bool) (l : list A) (i : nat)
    : list nat :=
  match l with
  | [] => []
  | x :: l' =>
      if p x then i :: indices_where p l' (S i) else indices_where p l' (S i)
  end.

(** *** Plain decimal literals

    The part of Python's [float] on literals of the shape
    sign, digits, optional point and digits; used where a concrete
    reading of the numbers of a model file is needed. *)
Definition digit_of (c : ascii) : option N :=
  let n := N_of_ascii c in
  if ((48 <=? n)%N && (n <=? 57)%N) then Some (n - 48)%N else None.

Fixpoint digits (s : string) (acc : N) : option N :=
  match s with
  | EmptyString => Some acc
  | String c s' =>
      match digit_of c with
      | Some d => digits s' (10 * acc + d)%N
      | None => None
      end
  end.

(** The text before the first point, and the text after it. *)
Fixpoint cut_point (s : string) : string * string :=
  match s with
  | EmptyString => (EmptyString, EmptyString)
  | String c s' =>
      if Ascii.eqb c "."%char then (EmptyString, s')
      else let (a, b) := cut_point s' in (String c a, b)
  end.

Definition decimal_float (s : string) : option Q :=
  let '(negative, body) :=
    match s with
    | String "-"%char r => (true, r)
    | String "+"%char r => (false, r)
    | _ => (false, s)
    end in
  let (ip, fp) := cut_point body in
  match ip, fp with
  | EmptyString, EmptyString => None
  | _, _ =>
      match digits ip 0, digits fp 0 with
      | Some i, Some f =>
          let num := Z.of_N (i * 10 ^ N.of_nat (String.length fp) + f) in
          let den := Z.to_pos (10 ^ Z.of_nat (String.length fp)) in
          Some (Qred ((if negative then - num else num)%Z # den))
      | _, _ => None
      end
  end.

End Py.

Import Py.

Declare Scope py_scope.
Delimit Scope py_scope with py.
Notation "x <- r ;; k" := (match r with Ok x => k | Raise e => Raise e end)
  (at level 61, r at next level, right associativity) : py_scope.
Local Open Scope py_scope.
Local Open Scope Q_scope.

(** ** ENVM1601_CentralBasinApproach.py *)
Module CentralBasinApproach.

(** The object: [model_path] is set by [__init__]; [total_system_volume]
    exists only once [create_CAS_model] has assigned it. *)
Record Central_Basin_Approach : Type := {
  model_path : string;
  total_system_volume : option Q
}.

(** *** [create_CAS_model]

    [read_model] is the list of lines that [fh.readlines()] yields for the
    file at [model_path]; [storage] is the list of [(name, threshold)]
    pairs.  The two [isinstance] guards at the top of the method concern
    arguments of another shape and are not reachable here.  [float] is
    Python's conversion of a token to a number, [None] where it raises
    ValueError. *)
Section CreateModel.

Variable float : string -> option Q.

Definition py_float (tok : string) : result Q :=
  of_option ValueError (float tok).

(** The expression the method writes three times:
    [read_model[[k for k in range([c for c, cl in enumerate(read_model)
    if '[STORAGE]' in cl][0], len(read_model)) if stor[0] in
    read_model[k]][0]]]. *)
Definition storage_line (read_model : list string) (name : string)
    : result string :=
  start <- py_index (indices_where (contains "[STORAGE]") read_model 0) 0 ;;
  k <- py_index
         (filter (fun k => contains name (nth k read_model EmptyString))
                 (seq start (List.length read_model - start)))
         0 ;;
  py_index read_model (Z.of_nat k).

(** [[i for i in all_curve if i.split()[0] == relevant_curve]]. *)
Fixpoint first_token_is (relevant_curve : string) (all_curve : list string)
    : result (list string) :=
  match all_curve with
  | [] => Ok []
  | i :: rest =>
      tok <- py_index (split i) 0 ;;
      rest' <- first_token_is relevant_curve rest ;;
      Ok (if String.eqb tok relevant_curve then i :: rest' else rest')
  end.

(** [float(row.split()[-1])] and [float(row.split()[-2])]. *)
Definition row_area (row : string) : result Q :=
  tok <- py_index (split row) (-1) ;; py_float tok.

Definition row_depth (row : string) : result Q :=
  tok <- py_index (split row) (-2) ;; py_float tok.

(** The [while sp < stor[1]] loop.  [all_curve] here is the part of the
    list from index [count] on, so [all_curve[count]] is its head and
    [all_curve[count+1]] the head of its tail; running off the end of the
    list raises IndexError. *)
Fixpoint integrate (all_curve : list string) (threshold sp volume : Q)
    : result Q :=
  if Qltb sp threshold then
    match all_curve with
    | [] => Raise IndexError
    | row0 :: rest =>
        a0 <- row_area row0 ;;
        match rest with
        | [] => Raise IndexError
        | row1 :: _ =>
            a1 <- row_area row1 ;;
            d1 <- row_depth row1 ;;
            d0 <- row_depth row0 ;;
            integrate rest threshold
                      (sp + (d1 - d0))
                      (volume + ((a0 + a1) / 2) * (d1 - d0))
        end
    end
  else Ok volume.

(** The body of [for stor in storage], up to the value of [volume]. *)
Definition storage_volume (read_model : list string) (stor : string * Q)
    : result Q :=
  line <- storage_line read_model (fst stor) ;;
  if contains "TABULAR" line then
    relevant_curve <- py_index (split line) 5 ;;
    all_curve <- first_token_is relevant_curve
                   (filter (contains relevant_curve) read_model) ;;
    integrate all_curve (snd stor) 0 0
  else
    tok <- py_index (split line) 5 ;;
    area <- py_float tok ;;
    Ok (snd stor * area).

(** The loop over [storage]: the running value of
    [self.total_system_volume], and how the loop ended. *)
Fixpoint storage_loop (read_model : list string) (storage : list (string * Q))
    (total : Q) : Q * result unit :=
  match storage with
  | [] => (total, Ok tt)
  | stor :: rest =>
      match storage_volume read_model stor with
      | Ok volume => storage_loop read_model rest (total + volume)
      | Raise e => (total, Raise e)
      end
  end.

(** [create_CAS_model(self, storage)]: the object after the call and the
    outcome of the call.  [storage[0]] raises IndexError on an empty list,
    before the attribute is assigned. *)
Definition create_CAS_model (self : Central_Basin_Approach)
    (read_model : list string) (storage : list (string * Q))
    : Central_Basin_Approach * result Q :=
  match storage with
  | [] => (self, Raise IndexError)
  | _ :: _ =>
      let (total, r) := storage_loop read_model storage 0 in
      ({| model_path := model_path self;
          total_system_volume := Some total |},
       _ <- r ;; Ok total)
  end.

(** A list of rows read as the [(depth, area)] samples of a curve. *)
Definition rows_read_as (rows : list string) (curve : list (Q * Q)) : Prop :=
  Forall2 (fun row p => row_depth row = Ok (fst p) /\ row_area row = Ok (snd p))
          rows curve.

End CreateModel.

(** *** Volume curves *)

(** Depth samples in strictly increasing order. *)
Fixpoint increasing (depths : list Q) : Prop :=
  match depths with
  | d0 :: ((d1 :: _) as rest) => d0 < d1 /\ increasing rest
  | _ => True
  end.

(** A small model file for worked cases: one storage node with a curve,
    one prismatic node, one node whose curve has no rows. *)
Definition example_inp : list string :=
  [ "[TITLE]";
    "[STORAGE]";
    ";;Name Elev MaxDepth InitDepth Shape Curve/Params";
    "SU1 0 5 0 TABULAR curve1 0 0";
    "SU2 0 5 0 FUNCTIONAL 100 0 0";
    "SU3 0 5 0 TABULAR curve3 0 0";
    "[CURVES]";
    "curve1 Storage 0 100";
    "curve1 1 100";
    "curve1 2 300" ]%string.

(** *** [run_CAS_model] *)

(** The three loop variables of [run_CAS_model]. *)
Record cas_state : Type := {
  available_storage : Q;
  total_cso_volume : Q;
  storage_tracked : list Q
}.

(** One iteration of [for inflow_t in inflow], statement by statement:
    in the overflow branch [available_storage] is assigned 0 first and the
    sum is taken afterwards, reading the variable just assigned. *)
Definition cas_step (capacity wwtp_capacity time_step : Q)
    (st : cas_state) (inflow_t : Q) : cas_state :=
  if Qgtb (inflow_t * time_step)
          (wwtp_capacity * time_step + available_storage st)
  then
    let available_storage' := 0 in
    let total_cso_volume' :=
      total_cso_volume st + (inflow_t * time_step -
                             wwtp_capacity * time_step -
                             available_storage') in
    {| available_storage := available_storage';
       total_cso_volume := total_cso_volume';
       storage_tracked := storage_tracked st ++ [available_storage'] |}
  else
    let available_storage' :=
      py_min (available_storage st +
              wwtp_capacity * time_step -
              inflow_t * time_step)
             capacity in
    {| available_storage := available_storage';
       total_cso_volume := total_cso_volume st;
       storage_tracked := storage_tracked st ++ [available_storage'] |}.

Definition cas_init (capacity : Q) : cas_state :=
  {| available_storage := capacity;
     total_cso_volume := 0;
     storage_tracked := [] |}.

(** The state after the loop has consumed the samples of [inflow]. *)
Definition cas_loop (capacity wwtp_capacity time_step : Q)
    (inflow : list Q) (st : cas_state) : cas_state :=
  fold_left (cas_step capacity wwtp_capacity time_step) inflow st.

(** [run_CAS_model(self, wwtp_capacity, inflow, time_step)].  Reading
    [self.total_system_volume] raises AttributeError when the attribute
    was never assigned. *)
Definition run_CAS_model (self : Central_Basin_Approach)
    (wwtp_capacity : Q) (inflow : list Q) (time_step : Q)
    : result (Q * list Q) :=
  capacity <- of_option
      (AttributeError "'Central_Basin_Approach' object has no attribute 'total_system_volume'")
      (total_system_volume self) ;;
  let st := cas_loop capacity wwtp_capacity time_step inflow
                     (cas_init capacity) in
  Ok (total_cso_volume st, storage_tracked st).

(** The value of [total_cso_volume] once the first [k] samples have been
    processed. *)
Definition overflow_after (capacity wwtp_capacity time_step : Q)
    (inflow : list Q) (k : nat) : Q :=
  total_cso_volume
    (cas_loop capacity wwtp_capacity time_step (firstn k inflow)
              (cas_init capacity)).

(** What every iteration preserves: the storage left is between 0 and the
    capacity, and so is every value recorded so far. *)
Definition in_range (capacity : Q) (st : cas_state) : Prop :=
  0 <= available_storage st <= capacity /\
  Forall (fun v => 0 <= v <= capacity) (storage_tracked st).

(** Inputs that carry no usable data: an empty inflow series, or a
    time step or treatment capacity that is not positive. *)
Definition malformed_inputs (wwtp_capacity : Q) (inflow : list Q)
    (time_step : Q) : Prop :=
  inflow = [] \/ time_step <= 0 \/ wwtp_capacity <= 0.

End CentralBasinApproach.

(** ** ENVM1601_Heuristics.py *)
Module Heuristics.

(** A field of a rule: a string or a number. *)
Inductive pyval : Type :=
| PStr (s : string)
| PNum (q : Q).

(** A rule is the Python list the caller wrote, e.g.
    [['j_10', 0.2, 1, 'higher']]. *)
Definition rule : Type := list pyval.

(** [rule_dictionary], in insertion order. *)
Definition rule_dict : Type := list (string * list rule).

(** [rule_dictionary[pump]]; a missing key raises KeyError. *)
Fixpoint dict_get (d : rule_dict) (key : string) : result (list rule) :=
  match d with
  | [] => Raise KeyError
  | (k, v) :: d' => if String.eqb k key then Ok v else dict_get d' key
  end.

(** [nodes_model]: the depth of each node the engine knows, at the
    current control step. *)
Definition nodes : Type := string -> option Q.

(** [links_model]: the target setting of each link. *)
Definition links : Type := string -> Q.

(** [links_model[pump].target_setting = v]. *)
Definition set_target_setting (links_model : links) (pump : string) (v : Q)
    : links :=
  fun p => if String.eqb p pump then v else links_model p.

(** [[d.lower() for d in rule if isinstance(d, str)]]. *)
Fixpoint lowered_strings (r : rule) : list string :=
  match r with
  | [] => []
  | PStr s :: r' => lower s :: lowered_strings r'
  | PNum _ :: r' => lowered_strings r'
  end.

(** [nodes_model[id].depth]: the engine raises for an identifier that is
    not the name of a node. *)
Definition node_depth (nodes_model : nodes) (id : pyval) : result Q :=
  match id with
  | PStr n => of_option EngineError (nodes_model n)
  | PNum _ => Raise EngineError
  end.

(** [depth > t] and [depth <= t]; a float does not compare with a string. *)
Definition depth_gt (depth : Q) (t : pyval) : result bool :=
  match t with
  | PNum q => Ok (Qgtb depth q)
  | PStr _ => Raise TypeError
  end.

Definition depth_le (depth : Q) (t : pyval) : result bool :=
  match t with
  | PNum q => Ok (Qle_bool depth q)
  | PStr _ => Raise TypeError
  end.

(** The assignment to [target_setting]; the engine takes a number only. *)
Definition assign_target (links_model : links) (pump : string) (v : pyval)
    : result links :=
  match v with
  | PNum q => Ok (set_target_setting links_model pump q)
  | PStr _ => Raise TypeError
  end.

(** The body of [for rule in rule_dictionary[pump]]. *)
Definition apply_rule (nodes_model : nodes) (pump : string)
    (links_model : links) (r : rule) : result links :=
  if str_in "higher" (lowered_strings r) then
    id <- py_index r 0 ;;
    depth <- node_depth nodes_model id ;;
    t <- py_index r 1 ;;
    above <- depth_gt depth t ;;
    if (above : bool) then
      v <- py_index r 2 ;; assign_target links_model pump v
    else Ok links_model
  else if str_in "lower" (lowered_strings r) then
    id <- py_index r 0 ;;
    depth <- node_depth nodes_model id ;;
    t <- py_index r 1 ;;
    below <- depth_le depth t ;;
    if (below : bool) then
      v <- py_index r 2 ;; assign_target links_model pump v
    else Ok links_model
  else Ok links_model.

(** [for rule in rules], in list order. *)
Fixpoint apply_rules (nodes_model : nodes) (pump : string)
    (rules : list rule) (links_model : links) : result links :=
  match rules with
  | [] => Ok links_model
  | r :: rules' =>
      links_model' <- apply_rule nodes_model pump links_model r ;;
      apply_rules nodes_model pump rules' links_model'
  end.

(** The [try] block for one pump. *)
Definition control_pump (rule_dictionary : rule_dict) (nodes_model : nodes)
    (pump : string) (links_model : links) : result links :=
  rules <- dict_get rule_dictionary pump ;;
  apply_rules nodes_model pump rules links_model.

(** The object the [except] clause builds. *)
Definition not_specified (pump : string) : exn :=
  AttributeError ("Pump " ++ pump ++ " Not Specified in Rules, please add").

(** [for pump in self.list_of_pumps] within one control step: the new
    settings, or the object handed to [return] by the bare [except]. *)
Fixpoint control_step (rule_dictionary : rule_dict) (nodes_model : nodes)
    (list_of_pumps : list string) (links_model : links) : links + exn :=
  match list_of_pumps with
  | [] => inl links_model
  | pump :: rest =>
      match control_pump rule_dictionary nodes_model pump links_model with
      | Ok links_model' =>
          control_step rule_dictionary nodes_model rest links_model'
      | Raise _ => inr (not_specified pump)
      end
  end.

(** The table built from [outfall_results]: one column per outfall. *)
Record DataFrame : Type := {
  columns : list string;
  series : list (list Q)
}.

(** What [run_model] hands to [return]: the table, or an exception
    object. *)
Inductive run_value : Type :=
| Frame (df : DataFrame)
| ExceptionObject (e : exn).

(** The hydraulic engine.  [W] is its state; [advance] integrates one
    control interval of 900 s under the current target settings;
    [depth], [total_inflow] and [current_time] are what the loop reads
    from it.  The simulated period holds [n_steps] control intervals. *)
Section Engine.

Variable W : Type.
Variable advance : links -> W -> W.
Variable depth : W -> nodes.
Variable total_inflow : W -> string -> Q.
Variable current_time : W -> Z.

(** [for step in sim]: the engine advances, then the body runs. *)
Fixpoint sim_loop (rule_dictionary : rule_dict)
    (list_of_pumps list_of_outfalls : list string)
    (n_steps : nat) (w : W) (links_model : links)
    (outfall_results : list (list Q)) (times : list Z)
    : (list (list Q) * list Z) + exn :=
  match n_steps with
  | O => inl (outfall_results, times)
  | S n =>
      let w' := advance links_model w in
      match control_step rule_dictionary (depth w') list_of_pumps links_model with
      | inr e => inr e
      | inl links_model' =>
          sim_loop rule_dictionary list_of_pumps list_of_outfalls n w'
            links_model'
            (map (fun ro => fst ro ++ [total_inflow w' (snd ro)])
                 (combine outfall_results list_of_outfalls))
            (times ++ [current_time w'])
      end
  end.

(** [run_model(self, rule_dictionary)].  The second assertion indexes the
    list of the dictionary's values, which raises IndexError when the
    dictionary is empty. *)
Definition run_model (rule_dictionary : rule_dict)
    (list_of_pumps list_of_outfalls : list string)
    (n_steps : nat) (w0 : W) (links0 : links) : result run_value :=
  _ <- py_index (map snd rule_dictionary) 0 ;;
  match sim_loop rule_dictionary list_of_pumps list_of_outfalls n_steps w0
                 links0 (map (fun _ => []) list_of_outfalls) [] with
  | inl (outfall_results, _) =>
      Ok (Frame {| columns := list_of_outfalls; series := outfall_results |})
  | inr e => Ok (ExceptionObject e)
  end.

End Engine.

(** *** The rules as the caller reads them *)

Inductive direction : Type := Higher | Lower.

(** How the evaluation classifies a rule: 'higher' is looked for first. *)
Definition direction_of (r : rule) : option direction :=
  if str_in "higher" (lowered_strings r) then Some Higher
  else if str_in "lower" (lowered_strings r) then Some Lower
  else None.

(** The rule matches the depth snapshot and asks for setting [v]:
    a 'higher' rule whose node is strictly above the threshold, or a
    'lower' rule whose node is at or below it. *)
Definition matches (nodes_model : nodes) (r : rule) (v : Q) : Prop :=
  exists n t d rest,
    r = PStr n :: PNum t :: PNum v :: rest /\
    nodes_model n = Some d /\
    ((direction_of r = Some Higher /\ d > t) \/
     (direction_of r = Some Lower /\ d <= t)).

(** A small engine for worked cases: the state counts the intervals
    done, every node in [depths] keeps the depth listed for it. *)
Definition table_depth (depths : list (string * Q)) : nodes :=
  fun n =>
    match find (fun p => String.eqb (fst p) n) depths with
    | Some p => Some (snd p)
    | None => None
    end.

(** The rules of two of the pumps in the docstring of [run_model]. *)
Definition example_rules : rule_dict :=
  [ ("p10_1"%string,
     [ [PStr "j_10"; PNum (2 # 10); PNum 1; PStr "higher"];
       [PStr "j_10"; PNum (2 # 10); PNum 0; PStr "lower"] ]);
    ("p_2_1"%string,
     [ [PStr "j_2"; PNum (5 # 10); PNum 1; PStr "higher"];
       [PStr "j_2"; PNum (2 # 10); PNum 0; PStr "lower"];
       [PStr "j_2"; PNum (15 # 10); PNum (5 # 10); PStr "higher"] ]) ].

End Heuristics.

(** ** The object of [HeuristicRTC] across calls *)
Module HeuristicRTCObject.

Import Heuristics.

(** The attributes of the object; those that [run_model] creates do not
    exist before its first call. *)
Record HeuristicRTC : Type := {
  model_path : string;
  list_of_pumps : option (list string);
  list_of_outfalls : option (list string);
  outfall_results : option (list (list Q));
  times : option (list Z);
  outfall_output : option DataFrame
}.

Section Engine.

Variable W : Type.
Variable advance : links -> W -> W.
Variable depth : W -> nodes.
Variable total_inflow : W -> string -> Q.
Variable current_time : W -> Z.

(** [for step in sim] with what it leaves in [self.outfall_results] and
    [self.times]: both lists are appended to in place, so the values of
    the steps completed before an early [return] stay on the object. *)
Fixpoint sim_loop_recording (rule_dictionary : rule_dict)
    (pumps outfalls : list string)
    (n_steps : nat) (w : W) (links_model : links)
    (results : list (list Q)) (stamps : list Z)
    : list (list Q) * list Z * option exn :=
  match n_steps with
  | O => (results, stamps, None)
  | S n =>
      let w' := advance links_model w in
      match control_step rule_dictionary (depth w') pumps links_model with
      | inr e => (results, stamps, Some e)
      | inl links_model' =>
          sim_loop_recording rule_dictionary pumps outfalls n w'
            links_model'
            (map (fun ro => fst ro ++ [total_inflow w' (snd ro)])
                 (combine results outfalls))
            (stamps ++ [current_time w'])
      end
  end.

(** [run_model(self, rule_dictionary)] with its effect on the object.
    [pumps] and [outfalls] are what the engine enumerates. *)
Definition run_model_on (self : HeuristicRTC) (rule_dictionary : rule_dict)
    (pumps outfalls : list string)
    (n_steps : nat) (w0 : W) (links0 : links)
    : HeuristicRTC * result run_value :=
  match py_index (map snd rule_dictionary) 0 with
  | Raise e => (self, Raise e)
  | Ok _ =>
      match sim_loop_recording rule_dictionary pumps outfalls n_steps w0
                               links0 (map (fun _ => []) outfalls) [] with
      | (results, stamps, Some e) =>
          ({| model_path := model_path self;
              list_of_pumps := Some pumps;
              list_of_outfalls := Some outfalls;
              outfall_results := Some results;
              times := Some stamps;
              outfall_output := outfall_output self |},
           Ok (ExceptionObject e))
      | (results, stamps, None) =>
          let df := {| columns := outfalls; series := results |} in
          ({| model_path := model_path self;
              list_of_pumps := Some pumps;
              list_of_outfalls := Some outfalls;
              outfall_results := Some results;
              times := Some stamps;
              outfall_output := Some df |},
           Ok (Frame df))
      end
  end.

End Engine.

(** [interpret_results(self)] with [plotting=False]:
    [self.outfall_output.sum()], the total of each column under the name
    of the column.  Reading the attribute raises AttributeError when no
    run has assigned it. *)
Definition interpret_results (self : HeuristicRTC)
    : result (list (string * Q)) :=
  df <- of_option
      (AttributeError "'HeuristicRTC' object has no attribute 'outfall_output'")
      (outfall_output self) ;;
  Ok (combine (columns df)
              (map (fun s => fold_left Qplus s 0) (series df))).

End HeuristicRTCObject.

(** ** [__init__] of both classes: where the model file is looked for *)
Module ModelPath.

(** How the constructor ends: [self.model_path] is set, an assertion
    fails with its message, or the directory cannot be listed. *)
Inductive init_outcome : Type :=
| Initialised (model_path : string)
| AssertionError (msg : string)
| OSError.

Section FileSystem.

(** [os.listdir()] for [None] and [os.listdir(d)] for [Some d];
    [None] as a result when the directory cannot be listed. *)
Variable listdir : option string -> option (list string).
Variable isfile : string -> bool.
Variable getcwd : string.

Definition backslash : string := String (ascii_of_nat 92) EmptyString.

Definition dquote : string := String (ascii_of_nat 34) EmptyString.

(** ['The given "model_name"' + 'is not found, ' + 'ensure the name
    contains' + ' .inp and exists in ' + place]. *)
Definition not_found_message (place : string) : string :=
  "The given " ++ dquote ++ "model_name" ++ dquote ++ "is not found, " ++
  "ensure the name contains" ++ " .inp and exists in " ++ place.

(** [__init__(self, model_directory=None, model_name=None)]. *)
Definition init (model_directory model_name : option string)
    : init_outcome :=
  match model_name, model_directory with
  | None, None =>
      match listdir None with
      | None => OSError
      | Some entries =>
          match filter (contains ".inp") entries with
          | [mn0] => Initialised mn0
          | _ => AssertionError
                   "Zero or Multiple input files found in target directory, specify the desired inp file"
          end
      end
  | None, Some d =>
      match listdir (Some d) with
      | None => OSError
      | Some entries =>
          match filter (contains "inp") entries with
          | [mn0] => Initialised (d ++ backslash ++ mn0)
          | _ => AssertionError
                   "Zero or Multiple input files found in given target directory, specify the desired inp file"
          end
      end
  | Some name, None =>
      if isfile name then Initialised name
      else AssertionError (not_found_message getcwd)
  | Some name, Some d =>
      if isfile (d ++ backslash ++ name)
      then Initialised (d ++ backslash ++ name)
      else AssertionError (not_found_message d)
  end.

End FileSystem.

End ModelPath.

(** ** The volume of a node over the machine's numbers

    The integration loop compares a running sum of rounded differences
    with the threshold, so where it stops depends on the arithmetic.
    Here the numbers are a type [num] with the operations the method
    applies, left open: the results hold for every such arithmetic, the
    exact one of [CentralBasinApproach] and binary64 alike. *)
Module FloatingPoint.

Import CentralBasinApproach.

Section Arithmetic.

Variable num : Type.
Variables zero two : num.
Variables add sub mul div : num -> num -> num.
Variable ltb : num -> num -> bool.

(** Python's [float] on a token, [None] where it raises ValueError. *)
Variable float : string -> option num.

Definition py_float (tok : string) : result num :=
  of_option ValueError (float tok).

(** [float(row.split()[-1])] and [float(row.split()[-2])]. *)
Definition row_area (row : string) : result num :=
  tok <- py_index (split row) (-1) ;; py_float tok.

Definition row_depth (row : string) : result num :=
  tok <- py_index (split row) (-2) ;; py_float tok.

(** The [while sp < stor[1]] loop of lines 104-113; [all_curve] is the
    part of the list from index [count] on. *)
Fixpoint integrate (all_curve : list string) (threshold sp volume : num)
    : result num :=
  if ltb sp threshold then
    match all_curve with
    | [] => Raise IndexError
    | row0 :: rest =>
        a0 <- row_area row0 ;;
        match rest with
        | [] => Raise IndexError
        | row1 :: _ =>
            a1 <- row_area row1 ;;
            d1 <- row_depth row1 ;;
            d0 <- row_depth row0 ;;
            integrate rest threshold
                      (add sp (sub d1 d0))
                      (add volume (mul (div (add a0 a1) two) (sub d1 d0)))
        end
    end
  else Ok volume.

(** The body of [for stor in storage], up to the value of [volume]. *)
Definition storage_volume (read_model : list string) (stor : string * num)
    : result num :=
  line <- storage_line read_model (fst stor) ;;
  if contains "TABULAR" line then
    relevant_curve <- py_index (split line) 5 ;;
    all_curve <- first_token_is relevant_curve
                   (filter (contains relevant_curve) read_model) ;;
    integrate all_curve (snd stor) zero zero
  else
    tok <- py_index (split line) 5 ;;
    area <- py_float tok ;;
    Ok (mul (snd stor) area).

(** A list of rows read as the [(depth, area)] samples of a curve. *)
Definition rows_read_as (rows : list string) (curve : list (num * num))
    : Prop :=
  Forall2 (fun row p => row_depth row = Ok (fst p) /\ row_area row = Ok (snd p))
          rows curve.

(** The trapezoid the loop adds for two consecutive samples. *)
Definition trapezoid (p0 p1 : num * num) : num :=
  mul (div (add (snd p0) (snd p1)) two) (sub (fst p1) (fst p0)).

(** The values of [sp] and [volume] after [n] iterations over the
    samples of [curve], started from the given values. *)
Fixpoint running (curve : list (num * num)) (n : nat) (sp volume : num)
    : num * num :=
  match n, curve with
  | S n', p0 :: ((p1 :: _) as rest) =>
      running rest n' (add sp (sub (fst p1) (fst p0)))
              (add volume (trapezoid p0 p1))
  | _, _ => (sp, volume)
  end.

(** The running cumulative depth and the volume after [n] intervals. *)
Definition running_depth (curve : list (num * num)) (n : nat) : num :=
  fst (running curve n zero zero).

Definition running_volume (curve : list (num * num)) (n : nat) : num :=
  snd (running curve n zero zero).

End Arithmetic.

(** *** binary64 *)

Definition of_N (n : N) : PrimFloat.float :=
  PrimFloat.of_uint63 (Uint63.of_Z (Z.of_N n)).

(** [float] on plain decimal literals, sign, digits, optional point and
    digits: the quotient of the digits read as an integer by the power of
    ten, one correctly rounded division.  Both are exact in binary64 when
    the integer is below 2^53 and the power is at most 10^22, so the
    quotient is the binary64 number nearest to the literal.  A longer
    literal and the other forms Python reads (exponents, inf, nan,
    underscores) are outside this reading ([None]); the worked cases
    use plain literals only. *)
Definition decimal_binary64 (s : string) : option PrimFloat.float :=
  let '(negative, body) :=
    match s with
    | String "-"%char r => (true, r)
    | String "+"%char r => (false, r)
    | _ => (false, s)
    end in
  let (ip, fp) := cut_point body in
  match ip, fp with
  | EmptyString, EmptyString => None
  | _, _ =>
      match digits ip 0, digits fp 0 with
      | Some i, Some f =>
          let k := N.of_nat (String.length fp) in
          let n := (i * 10 ^ k + f)%N in
          if ((n <? 2 ^ 53)%N && (k <=? 22)%N)%bool then
            let q := PrimFloat.div (of_N n) (of_N (10 ^ k)) in
            Some (if negative then PrimFloat.opp q else q)
          else None
      | _, _ => None
      end
  end.

(** The loop, the volume of a spec and the running values in binary64. *)
Definition integrate64 (float : string -> option PrimFloat.float) :=
  integrate PrimFloat.float 2%float PrimFloat.add PrimFloat.sub
            PrimFloat.mul PrimFloat.div PrimFloat.ltb float.

Definition storage_volume64 (float : string -> option PrimFloat.float) :=
  storage_volume PrimFloat.float 0%float 2%float PrimFloat.add PrimFloat.sub
                 PrimFloat.mul PrimFloat.div PrimFloat.ltb float.

Definition rows_read_as64 (float : string -> option PrimFloat.float) :=
  rows_read_as PrimFloat.float float.

Definition trapezoid64 :=
  trapezoid PrimFloat.float 2%float PrimFloat.add PrimFloat.sub
            PrimFloat.mul PrimFloat.div.

Definition running_depth64 :=
  running_depth PrimFloat.float 0%float 2%float PrimFloat.add PrimFloat.sub
                PrimFloat.mul PrimFloat.div.

Definition running_volume64 :=
  running_volume PrimFloat.float 0%float 2%float PrimFloat.add PrimFloat.sub
                 PrimFloat.mul PrimFloat.div.

(** A curve of constant area 100 with depths 0, 0.3, 0.9 and 1.0, its
    samples as binary64 values, and the binary64 number that follows 0.9
    (Python prints it 0.9000000000000001). *)
Definition rounding_rows : list string :=
  [ "curve1 Storage 0 100";
    "curve1 0.3 100";
    "curve1 0.9 100";
    "curve1 1.0 100" ]%string.

Definition rounding_curve : list (PrimFloat.float * PrimFloat.float) :=
  [ (0, 100); (0x1.3333333333333p-2, 100);
    (0x1.ccccccccccccdp-1, 100); (1, 100) ]%float.

Definition rounding_threshold : PrimFloat.float :=
  0x1.ccccccccccccep-1%float.

(** A model file in which node SU1 has the curve of [example_inp] with
    one more sample. *)
Definition tabular_inp : list string :=
  [ "[TITLE]";
    "[STORAGE]";
    ";;Name Elev MaxDepth InitDepth Shape Curve/Params";
    "SU1 0 5 0 TABULAR curve1 0 0";
    "[CURVES]";
    "curve1 Storage 0 100";
    "curve1 1 100";
    "curve1 2 300";
    "curve1 4 300" ]%string.

Definition tabular_curve : list (PrimFloat.float * PrimFloat.float) :=
  [ (0, 100); (1, 100); (2, 300); (4, 300) ]%float.

End FloatingPoint.

(** ** [create_CAS_model] from its first line

    The call as a whole: the two guards on the shape of [storage], the
    reading of the file, then the loop of [CentralBasinApproach]. *)
Module CreateModelCall.

Import Py CentralBasinApproach.

(** The argument [storage] by the shape the guards look at: anything
    that is not a list; a list of [name, threshold] lists or tuples; a
    list whose first element is neither a list nor a tuple. *)
Inductive storage_arg : Type :=
| NotAList
| ListOfPairs (specs : list (string * Q))
| ListLedByOther.

(** How the call ends: it returns the capacity, it returns an
    AttributeError object built from the given arguments, it raises an
    exception of the loop or of [storage[0]], or it raises whatever
    [open(self.model_path, 'r')] and [fh.readlines()] raised. *)
Inductive call_outcome : Type :=
| Returned (total : Q)
| ReturnedAttributeError (args : list string)
| Raised (e : exn)
| RaisedByReading.

Definition not_a_list_args : list string :=
  [ "storage should be a list of the nameswith the depth thresholds" ]%string.

Definition not_pairs_args : list string :=
  [ "storage should be a list of lists or";
    "tuple such that";
    "stor =[[name, threshold]]" ]%string.

(** [read] is the outcome of lines 79-80: the lines of the file, or
    [None] when reading [self.model_path], opening the file or reading
    its lines raised. *)
Definition create_CAS_model_call (float : string -> option Q)
    (self : Central_Basin_Approach) (read : option (list string))
    (storage : storage_arg) : Central_Basin_Approach * call_outcome :=
  match storage with
  | NotAList => (self, ReturnedAttributeError not_a_list_args)
  | ListLedByOther => (self, ReturnedAttributeError not_pairs_args)
  | ListOfPairs [] => (self, Raised IndexError)
  | ListOfPairs (stor :: rest) =>
      match read with
      | None => (self, RaisedByReading)
      | Some read_model =>
          let (self', r) :=
            create_CAS_model float self read_model (stor :: rest) in
          (self', match r with
                  | Ok total => Returned total
                  | Raise e => Raised e
                  end)
      end
  end.

(** The call got past the guards and read the file. *)
Definition reaches_loop (read : option (list string)) (storage : storage_arg)
    : bool :=
  match storage, read with
  | ListOfPairs (_ :: _), Some _ => true
  | _, _ => false
  end.

End CreateModelCall.


(** * Properties *)

(** ** Comparisons *)

Lemma Qltb_lt (x y : Q) : Qltb x y = true <-> x < y.
Proof.
  unfold Qltb. rewrite negb_true_iff.
  split; intro H.
  - apply Qnot_le_lt. intro Hle. apply Qle_bool_iff in Hle. congruence.
  - destruct (Qle_bool y x) eqn:E; [|reflexivity].
    apply Qle_bool_iff in E. exfalso. apply (Qlt_not_le _ _ H E).
Qed.

Lemma Qltb_ge (x y : Q) : Qltb x y = false <-> y <= x.
Proof.
  unfold Qltb. rewrite negb_false_iff. apply Qle_bool_iff.
Qed.

Lemma py_min_le_r (a b : Q) : py_min a b <= b.
Proof.
  unfold py_min. destruct (Qltb b a) eqn:E.
  - apply Qle_refl.
  - apply Qltb_ge in E. exact E.
Qed.

Lemma py_min_glb (a b c : Q) : c <= a -> c <= b -> c <= py_min a b.
Proof.
  unfold py_min. destruct (Qltb b a); auto.
Qed.

(** ** Indexing *)

Lemma py_index_0 {A : Type} (l : list A) :
  py_index l 0 = of_option IndexError (nth_error l 0).
Proof. reflexivity. Qed.

Lemma py_index_1 {A : Type} (l : list A) :
  py_index l 1 = of_option IndexError (nth_error l 1).
Proof. reflexivity. Qed.

Lemma py_index_2 {A : Type} (l : list A) :
  py_index l 2 = of_option IndexError (nth_error l 2).
Proof. reflexivity. Qed.

(** ** The mass balance of [run_CAS_model] *)
Section MassBalance.

Import CentralBasinApproach.

Variables capacity wwtp_capacity time_step : Q.

Local Abbreviation step := (cas_step capacity wwtp_capacity time_step).
Local Abbreviation loop := (cas_loop capacity wwtp_capacity time_step).

(** The two branches of one iteration. *)
Lemma cas_step_overflow (st : cas_state) (q : Q) :
  q * time_step > wwtp_capacity * time_step + available_storage st ->
  step st q =
    {| available_storage := 0;
       total_cso_volume :=
         total_cso_volume st + (q * time_step - wwtp_capacity * time_step - 0);
       storage_tracked := storage_tracked st ++ [0] |}.
Proof.
  intro H. unfold cas_step, Qgtb.
  apply Qltb_lt in H. rewrite H. reflexivity.
Qed.

Lemma cas_step_absorb (st : cas_state) (q : Q) :
  q * time_step <= wwtp_capacity * time_step + available_storage st ->
  step st q =
    let a := py_min (available_storage st + wwtp_capacity * time_step
                     - q * time_step) capacity in
    {| available_storage := a;
       total_cso_volume := total_cso_volume st;
       storage_tracked := storage_tracked st ++ [a] |}.
Proof.
  intro H. unfold cas_step, Qgtb.
  apply Qltb_ge in H. rewrite H. reflexivity.
Qed.

Lemma cas_step_cases (st : cas_state) (q : Q) :
  {q * time_step > wwtp_capacity * time_step + available_storage st} +
  {q * time_step <= wwtp_capacity * time_step + available_storage st}.
Proof.
  destruct (Qlt_le_dec (wwtp_capacity * time_step + available_storage st)
                       (q * time_step)); [left|right]; assumption.
Qed.

Lemma cas_loop_snoc (inflow : list Q) (q : Q) (st : cas_state) :
  loop (inflow ++ [q]) st = step (loop inflow st) q.
Proof.
  unfold cas_loop. rewrite fold_left_app. reflexivity.
Qed.

Hypothesis capacity_nonneg : 0 <= capacity.

Lemma in_range_init : in_range capacity (cas_init capacity).
Proof.
  split; simpl.
  - split; [assumption | apply Qle_refl].
  - constructor.
Qed.

Lemma in_range_step (st : cas_state) (q : Q) :
  in_range capacity st -> in_range capacity (step st q).
Proof.
  intros [[Hlo Hhi] Htr].
  destruct (cas_step_cases st q) as [Hov | Hab].
  - rewrite (cas_step_overflow _ _ Hov). split; simpl.
    + split; [apply Qle_refl | assumption].
    + apply Forall_app. split; [assumption|].
      constructor; [|constructor]. split; [apply Qle_refl | assumption].
  - rewrite (cas_step_absorb _ _ Hab). cbv zeta.
    assert (Ha : 0 <= py_min (available_storage st + wwtp_capacity * time_step
                              - q * time_step) capacity <= capacity).
    { split; [|apply py_min_le_r].
      apply py_min_glb; [lra | assumption]. }
    split; simpl.
    + exact Ha.
    + apply Forall_app. split; [assumption|].
      constructor; [exact Ha | constructor].
Qed.

Lemma in_range_loop (inflow : list Q) (st : cas_state) :
  in_range capacity st -> in_range capacity (loop inflow st).
Proof.
  revert st. induction inflow as [|q inflow IH]; intros st Hst.
  - exact Hst.
  - apply (IH (step st q)). apply in_range_step. exact Hst.
Qed.

Lemma tracked_length_step (st : cas_state) (q : Q) :
  List.length (storage_tracked (step st q)) =
  S (List.length (storage_tracked st)).
Proof.
  unfold cas_step.
  destruct (Qgtb _ _); simpl; rewrite length_app; simpl; lia.
Qed.

Lemma tracked_length_loop (inflow : list Q) (st : cas_state) :
  List.length (storage_tracked (loop inflow st)) =
  (List.length (storage_tracked st) + List.length inflow)%nat.
Proof.
  revert st. induction inflow as [|q inflow IH]; intro st; simpl.
  - lia.
  - unfold cas_loop in *. simpl. rewrite IH.
    rewrite tracked_length_step. lia.
Qed.

Lemma overflow_step_mono (st : cas_state) (q : Q) :
  0 <= available_storage st ->
  total_cso_volume st <= total_cso_volume (step st q).
Proof.
  intro Hlo.
  destruct (cas_step_cases st q) as [Hov | Hab].
  - rewrite (cas_step_overflow _ _ Hov). simpl. lra.
  - rewrite (cas_step_absorb _ _ Hab). simpl. apply Qle_refl.
Qed.

Lemma overflow_after_mono (inflow : list Q) (k : nat) :
  overflow_after capacity wwtp_capacity time_step inflow k <=
  overflow_after capacity wwtp_capacity time_step inflow (S k).
Proof.
  unfold overflow_after.
  destruct (Nat.lt_ge_cases k (List.length inflow)) as [Hk | Hk].
  - destruct (nth_error inflow k) as [q|] eqn:Eq.
    2:{ apply nth_error_None in Eq. lia. }
    assert (E : firstn (S k) inflow = firstn k inflow ++ [q]).
    { clear - Eq. revert k Eq.
      induction inflow as [|x l IH]; intros [|k] Eq; simpl in *;
        try discriminate.
      - congruence.
      - rewrite (IH _ Eq). reflexivity. }
    rewrite E. rewrite cas_loop_snoc.
    apply overflow_step_mono.
    apply (in_range_loop (firstn k inflow) _ in_range_init).
  - rewrite !firstn_all2 by lia. apply Qle_refl.
Qed.

End MassBalance.

Section RunModelClaims.

Import CentralBasinApproach.

Lemma run_CAS_model_returns (self : Central_Basin_Approach)
    (capacity wwtp_capacity time_step : Q) (inflow : list Q) :
  total_system_volume self = Some capacity ->
  run_CAS_model self wwtp_capacity inflow time_step =
    Ok (overflow_after capacity wwtp_capacity time_step inflow
                       (List.length inflow),
        storage_tracked (cas_loop capacity wwtp_capacity time_step inflow
                                  (cas_init capacity))).
Proof.
  intro H. unfold run_CAS_model, overflow_after. rewrite H. simpl.
  rewrite firstn_all. reflexivity.
Qed.

(** In the overflow branch the amount added exceeds the shortfall taken
    with the storage left before the step by exactly that storage. *)
Lemma overflow_increment_ignores_storage
    (capacity wwtp_capacity time_step inflow_t : Q) (st : cas_state) :
  inflow_t * time_step > wwtp_capacity * time_step + available_storage st ->
  total_cso_volume (cas_step capacity wwtp_capacity time_step st inflow_t)
    - total_cso_volume st
  == (inflow_t * time_step - wwtp_capacity * time_step
      - available_storage st) + available_storage st.
Proof.
  intro Hov. rewrite (cas_step_overflow capacity _ _ _ _ Hov). simpl. ring.
Qed.

(** Scenario A: capacity 100, no treatment, time step 1, inflow 50. *)
Example scenario_A :
  run_CAS_model {| model_path := "model.inp";
                   total_system_volume := Some 100 |}
                0 [50] 1
  = Ok (0, [50]).
Proof. reflexivity. Qed.

(** C1.  Scenario B on the code: capacity 100, no treatment, time step 1,
    inflow 50 then 80.  The second sample overflows; the method has
    already assigned 0 to [available_storage] when it takes the
    difference, so it returns an overflow of 80 and not the 30 that the
    storage left before the step (50) would give. *)
Theorem scenario_B_overflow_is_80 :
  run_CAS_model {| model_path := "model.inp";
                   total_system_volume := Some 100 |}
                0 [50; 80] 1
  = Ok (80, [50; 0]) /\
  ~ 80 == 30.
Proof.
  split.
  - reflexivity.
  - intro H. discriminate H.
Qed.

(** C2.  In the overflow branch the storage left becomes 0 and the
    overflow grows by [inflow_t*time_step - wwtp_capacity*time_step - 0],
    that is by [(inflow_t - wwtp_capacity)*time_step]; the growth is the
    same whatever storage was left when the step began. *)
Theorem overflow_increment_state_independent
    (capacity wwtp_capacity time_step inflow_t : Q) (st : cas_state) :
  inflow_t * time_step > wwtp_capacity * time_step + available_storage st ->
  let st' := cas_step capacity wwtp_capacity time_step st inflow_t in
  available_storage st' = 0 /\
  total_cso_volume st' =
    total_cso_volume st +
    (inflow_t * time_step - wwtp_capacity * time_step - 0) /\
  total_cso_volume st' - total_cso_volume st ==
    (inflow_t - wwtp_capacity) * time_step /\
  (forall st2 : cas_state,
      inflow_t * time_step >
        wwtp_capacity * time_step + available_storage st2 ->
      total_cso_volume
        (cas_step capacity wwtp_capacity time_step st2 inflow_t)
        - total_cso_volume st2 ==
      total_cso_volume st' - total_cso_volume st).
Proof.
  intros Hov st'. subst st'.
  rewrite (cas_step_overflow capacity _ _ _ _ Hov). simpl.
  repeat split.
  - ring.
  - intros st2 Hov2.
    rewrite (cas_step_overflow capacity _ _ _ _ Hov2). simpl. ring.
Qed.

Lemma overflow_increment_state_independent_witness :
  let st := {| available_storage := 50;
               total_cso_volume := 0;
               storage_tracked := [50] |} in
  80 * 1 > 0 * 1 + available_storage st /\
  total_cso_volume (cas_step 100 0 1 st 80) - total_cso_volume st ==
    (80 - 0) * 1.
Proof.
  intro st.
  assert (H : 80 * 1 > 0 * 1 + available_storage st) by reflexivity.
  split; [exact H|].
  exact (proj1 (proj2 (proj2
    (overflow_increment_state_independent 100 0 1 80 st H)))).
Defined.

(** C4.  For a capacity that is not negative, a treatment capacity that
    is not negative, a positive time step and an inflow series without
    negative values, the method returns, every recorded storage value is
    between 0 and the capacity, and there is one recorded value per inflow
    sample. *)
Theorem storage_trajectory_within_capacity
    (self : Central_Basin_Approach)
    (capacity wwtp_capacity time_step : Q) (inflow : list Q) :
  total_system_volume self = Some capacity ->
  0 <= capacity ->
  0 <= wwtp_capacity ->
  0 < time_step ->
  Forall (fun q => 0 <= q) inflow ->
  exists total tracked,
    run_CAS_model self wwtp_capacity inflow time_step = Ok (total, tracked) /\
    Forall (fun v => 0 <= v <= capacity) tracked /\
    List.length tracked = List.length inflow.
Proof.
  intros Hself Hcap _ _ _.
  rewrite (run_CAS_model_returns self _ wwtp_capacity time_step inflow Hself).
  eexists. eexists. split; [reflexivity|]. split.
  - apply (in_range_loop capacity wwtp_capacity time_step Hcap inflow).
    apply in_range_init. exact Hcap.
  - rewrite tracked_length_loop. reflexivity.
Qed.

Lemma storage_trajectory_within_capacity_witness :
  exists total tracked,
    run_CAS_model {| model_path := "model.inp";
                     total_system_volume := Some 100 |}
                  (1 # 2) [50; 80; 0] 2 = Ok (total, tracked) /\
    Forall (fun v => 0 <= v <= 100) tracked /\
    List.length tracked = 3%nat.
Proof.
  apply (storage_trajectory_within_capacity
           {| model_path := "model.inp"; total_system_volume := Some 100 |}
           100 (1 # 2) 2 [50; 80; 0]).
  - reflexivity.
  - discriminate.
  - discriminate.
  - reflexivity.
  - repeat constructor; discriminate.
Defined.

(** C5.  With such inputs the overflow total never decreases from one
    sample to the next: the total after sample [k+1] is at least the
    total after sample [k]; the total after the last sample is the one
    the method returns. *)
Theorem cumulative_overflow_nondecreasing
    (capacity wwtp_capacity time_step : Q) (inflow : list Q) (k : nat) :
  0 <= capacity ->
  0 <= wwtp_capacity ->
  0 < time_step ->
  Forall (fun q => 0 <= q) inflow ->
  (k < List.length inflow)%nat ->
  overflow_after capacity wwtp_capacity time_step inflow k <=
  overflow_after capacity wwtp_capacity time_step inflow (S k) /\
  (forall self,
      total_system_volume self = Some capacity ->
      exists tracked,
        run_CAS_model self wwtp_capacity inflow time_step =
          Ok (overflow_after capacity wwtp_capacity time_step inflow
                             (List.length inflow), tracked)).
Proof.
  intros Hcap _ _ _ _. split.
  - apply overflow_after_mono. exact Hcap.
  - intros self Hself. eexists.
    apply run_CAS_model_returns. exact Hself.
Qed.

Lemma cumulative_overflow_nondecreasing_witness :
  overflow_after 100 0 1 [50; 80; 10] 1 <=
  overflow_after 100 0 1 [50; 80; 10] 2.
Proof.
  apply (cumulative_overflow_nondecreasing 100 0 1 [50; 80; 10] 1).
  - discriminate.
  - discriminate.
  - reflexivity.
  - repeat constructor; discriminate.
  - simpl; lia.
Defined.

(** C8, as the claim has it, fails: with an empty inflow series, a time
    step of 0 and a treatment capacity of 0 the method returns
    [(0, [])]. *)
Lemma empty_inflow_returns_normally :
  let self := {| model_path := "model.inp";
                 total_system_volume := Some 100 |} in
  malformed_inputs 0 [] 0 /\
  run_CAS_model self 0 [] 0 = Ok (0, []) /\
  ~ raises (run_CAS_model self 0 [] 0).
Proof.
  intro self. split; [left; reflexivity|]. split.
  - reflexivity.
  - intros [e He]. discriminate He.
Qed.

(** C8, amended.  The method checks none of its arguments.  It raises
    exactly when the object has no [total_system_volume] yet, whatever the
    inflow, the time step and the treatment capacity; once the attribute
    is set it returns, and for an empty inflow it returns [(0, [])]. *)
Theorem run_CAS_model_raises_iff_unset
    (self : Central_Basin_Approach)
    (wwtp_capacity time_step : Q) (inflow : list Q) :
  (raises (run_CAS_model self wwtp_capacity inflow time_step) <->
   total_system_volume self = None) /\
  (forall capacity,
      total_system_volume self = Some capacity ->
      run_CAS_model self wwtp_capacity [] time_step = Ok (0, [])).
Proof.
  split.
  - unfold run_CAS_model, raises.
    destruct (total_system_volume self) as [c|]; simpl; split.
    + intros [e He]. discriminate He.
    + discriminate.
    + reflexivity.
    + intros _. eexists. reflexivity.
  - intros capacity H. unfold run_CAS_model. rewrite H. reflexivity.
Qed.

Lemma run_CAS_model_raises_iff_unset_witness :
  raises (run_CAS_model {| model_path := "model.inp";
                           total_system_volume := None |}
                        1 [50; 80] 1) /\
  run_CAS_model {| model_path := "model.inp";
                   total_system_volume := Some 100 |}
                0 [] 0 = Ok (0, []).
Proof.
  split.
  - apply (proj1 (run_CAS_model_raises_iff_unset
                    {| model_path := "model.inp";
                       total_system_volume := None |} 1 1 [50; 80])).
    reflexivity.
  - apply (proj2 (run_CAS_model_raises_iff_unset
                    {| model_path := "model.inp";
                       total_system_volume := Some 100 |} 0 0 [])
                 100).
    reflexivity.
Defined.

End RunModelClaims.

(** ** The curve integrator of [create_CAS_model] *)
Section Integrator.

Import CentralBasinApproach.

Variable float : string -> option Q.

Lemma integrate_stops (rows : list string) (threshold sp volume : Q) :
  threshold <= sp ->
  integrate float rows threshold sp volume = Ok volume.
Proof.
  intro H. apply Qltb_ge in H.
  destruct rows; simpl; rewrite H; reflexivity.
Qed.

Lemma integrate_advances (row0 row1 : string) (rows : list string)
    (d0 a0 d1 a1 threshold sp volume : Q) :
  row_depth float row0 = Ok d0 -> row_area float row0 = Ok a0 ->
  row_depth float row1 = Ok d1 -> row_area float row1 = Ok a1 ->
  sp < threshold ->
  integrate float (row0 :: row1 :: rows) threshold sp volume =
  integrate float (row1 :: rows) threshold
            (sp + (d1 - d0)) (volume + ((a0 + a1) / 2) * (d1 - d0)).
Proof.
  intros Hd0 Ha0 Hd1 Ha1 H. apply Qltb_lt in H.
  cbn [integrate]. rewrite H, Ha0, Ha1, Hd1, Hd0. reflexivity.
Qed.

End Integrator.

Lemma filter_none {A : Type} (p : A -> bool) (l : list A) :
  (forall x, In x l -> p x = false) -> filter p l = [].
Proof.
  induction l as [|x l IH]; intro H; simpl.
  - reflexivity.
  - rewrite (H x (or_introl eq_refl)). apply IH.
    intros y Hy. apply H. right. exact Hy.
Qed.

(** ** The capacity stored by [create_CAS_model] *)
Section StoredCapacity.

Import CentralBasinApproach.

Variable float : string -> option Q.
Variable read_model : list string.

(** The specs of [storage] resolve, one by one, to the volumes [vols]. *)
Local Abbreviation resolve_to storage vols :=
  (Forall2 (fun stor v => storage_volume float read_model stor = Ok v)
           storage vols).

Lemma storage_loop_completes (storage : list (string * Q)) (vols : list Q) :
  resolve_to storage vols ->
  forall total,
    storage_loop float read_model storage total =
      (fold_left Qplus vols total, Ok tt).
Proof.
  induction 1 as [|stor v storage vols Hv _ IH]; intro total; simpl.
  - reflexivity.
  - rewrite Hv. apply IH.
Qed.

Lemma storage_loop_stops (pre post : list (string * Q)) (vols : list Q)
    (bad : string * Q) (e : exn) :
  resolve_to pre vols ->
  storage_volume float read_model bad = Raise e ->
  forall total,
    storage_loop float read_model (pre ++ bad :: post) total =
      (fold_left Qplus vols total, Raise e).
Proof.
  intros Hpre Hbad.
  induction Hpre as [|stor v pre vols Hv _ IH]; intro total; simpl.
  - rewrite Hbad. reflexivity.
  - rewrite Hv. apply IH.
Qed.

(** A name that occurs in no line of the file has no storage line. *)
Lemma storage_line_unknown (name : string) :
  (forall line, In line read_model -> contains name line = false) ->
  storage_line read_model name = Raise IndexError.
Proof.
  intro Hno. unfold storage_line.
  destruct (py_index (indices_where (contains "[STORAGE]") read_model 0) 0)
    as [start|e] eqn:Es.
  - assert (Hf : filter
                   (fun k => contains name (nth k read_model EmptyString))
                   (seq start (List.length read_model - start)) = []).
    { apply filter_none. intros k Hk. apply in_seq in Hk.
      apply Hno. apply nth_In. lia. }
    rewrite Hf. reflexivity.
  - unfold py_index in Es. simpl in Es.
    destruct (indices_where _ _ _); simpl in Es; congruence.
Qed.

(** Rows whose samples all lie below the threshold: the loop runs off
    the end of the list. *)
Lemma integrate_runs_off (rows : list string) (curve : list (Q * Q)) :
  rows_read_as float rows curve ->
  forall threshold base sp volume,
    sp < threshold ->
    match curve with
    | [] => True
    | p :: _ => sp == fst p - base
    end ->
    Forall (fun p => fst p - base < threshold) curve ->
    integrate float rows threshold sp volume = Raise IndexError.
Proof.
  induction 1 as [|row0 [d0 a0] rows curve [Hd0 Ha0] Hrows IH];
    intros threshold base sp volume Hsp Hhead Hall.
  - simpl. apply Qltb_lt in Hsp. rewrite Hsp. reflexivity.
  - destruct Hrows as [|row1 [d1 a1] rows curve [Hd1 Ha1] Hrows].
    + simpl in *. apply Qltb_lt in Hsp. rewrite Hsp, Ha0. reflexivity.
    + rewrite (integrate_advances float row0 row1 rows d0 a0 d1 a1
                 threshold sp volume Hd0 Ha0 Hd1 Ha1 Hsp).
      inversion Hall as [|? ? H0 Hall']; subst.
      inversion Hall' as [|? ? H1 _]; subst.
      simpl in Hhead, H0, H1.
      apply (IH threshold base).
      * lra.
      * simpl. lra.
      * exact Hall'.
Qed.

End StoredCapacity.

Section StoredCapacityClaims.

Import CentralBasinApproach.

(** The three ways a spec fails to resolve. *)
Lemma unknown_name_fails (float : string -> option Q)
    (read_model : list string) (name : string) (threshold : Q) :
  (forall line, In line read_model -> contains name line = false) ->
  storage_volume float read_model (name, threshold) = Raise IndexError.
Proof.
  intro H. unfold storage_volume. simpl.
  rewrite (storage_line_unknown read_model name H). reflexivity.
Qed.

Lemma short_curve_fails (float : string -> option Q)
    (read_model : list string) (name line relevant_curve : string)
    (rows : list string) (curve : list (Q * Q)) (threshold : Q) :
  storage_line read_model name = Ok line ->
  contains "TABULAR" line = true ->
  py_index (split line) 5 = Ok relevant_curve ->
  first_token_is relevant_curve (filter (contains relevant_curve) read_model)
    = Ok rows ->
  rows_read_as float rows curve ->
  0 < threshold ->
  Forall (fun p => fst p - fst (nth 0 curve (0, 0)) < threshold) curve ->
  storage_volume float read_model (name, threshold) = Raise IndexError.
Proof.
  intros Hline Htab Hrc Hrows Hread Hthr Hall.
  unfold storage_volume. simpl. rewrite Hline, Htab, Hrc, Hrows.
  apply (integrate_runs_off float rows curve Hread threshold
           (fst (nth 0 curve (0, 0))) 0 0 Hthr).
  - destruct curve; [exact I | simpl; ring].
  - exact Hall.
Qed.

(** C9, as the claim has it, fails.  On [example_inp], each of the three
    failures (a name that matches no storage line, a curve without rows,
    a curve that ends below the threshold) aborts the build at the second
    spec and leaves [total_system_volume] holding the volume of the first
    spec, where the object had no such attribute before. *)
Lemma failed_build_keeps_partial_sum :
  let self := {| model_path := "model.inp"%string;
                 total_system_volume := None |} in
  let build := create_CAS_model decimal_float self example_inp in
  storage_volume decimal_float example_inp ("SU2"%string, 2) = Ok (2 * 100) /\
  (build [("SU2"%string, 2); ("SU9"%string, 1)] =
     ({| model_path := "model.inp"%string;
         total_system_volume := Some (0 + 2 * 100) |}, Raise IndexError)) /\
  (build [("SU2"%string, 2); ("SU3"%string, 1)] =
     ({| model_path := "model.inp"%string;
         total_system_volume := Some (0 + 2 * 100) |}, Raise IndexError)) /\
  (build [("SU2"%string, 2); ("SU1"%string, 3)] =
     ({| model_path := "model.inp"%string;
         total_system_volume := Some (0 + 2 * 100) |}, Raise IndexError)) /\
  total_system_volume (fst (build [("SU2"%string, 2); ("SU9"%string, 1)]))
    <> total_system_volume self.
Proof.
  intros self build. repeat split; try reflexivity.
  discriminate.
Qed.

(** C9, amended.  When the specs before a failing one resolve to the
    volumes [vols] and the failing one raises [e], the build raises [e]
    and no capacity is returned; [total_system_volume] is left holding the
    sum of [vols], the partial sum of the specs processed before the
    failing one (0 when the first spec fails). *)
Theorem failed_build_stores_partial_sum (float : string -> option Q)
    (self : Central_Basin_Approach) (read_model : list string)
    (pre post : list (string * Q)) (bad : string * Q)
    (vols : list Q) (e : exn) :
  Forall2 (fun stor v => storage_volume float read_model stor = Ok v)
          pre vols ->
  storage_volume float read_model bad = Raise e ->
  create_CAS_model float self read_model (pre ++ bad :: post) =
    ({| model_path := model_path self;
        total_system_volume := Some (fold_left Qplus vols 0) |},
     Raise e).
Proof.
  intros Hpre Hbad. unfold create_CAS_model.
  rewrite (storage_loop_stops float read_model pre post vols bad e Hpre Hbad).
  destruct (pre ++ bad :: post) eqn:E.
  - destruct pre; discriminate E.
  - reflexivity.
Qed.

Lemma failed_build_stores_partial_sum_witness :
  create_CAS_model decimal_float
    {| model_path := "model.inp"%string; total_system_volume := Some 7 |}
    example_inp
    ([("SU2"%string, 2); ("SU1"%string, 3 # 2)] ++
     ("SU9"%string, 1) :: [("SU2"%string, 1)]) =
  ({| model_path := "model.inp"%string;
      total_system_volume :=
        Some (fold_left Qplus
                [2 * 100;
                 0 + ((100 + 100) / 2) * (1 - 0) + ((100 + 300) / 2) * (2 - 1)]
                0) |},
   Raise IndexError).
Proof.
  apply (failed_build_stores_partial_sum decimal_float).
  - repeat constructor.
  - reflexivity.
Defined.

End StoredCapacityClaims.

(** ** Rule evaluation in [run_model] *)
Section RuleEvaluation.

Import Heuristics.

Variable nodes_model : nodes.
Variable pump : string.

Lemma direction_higher (r : rule) :
  direction_of r = Some Higher <-> str_in "higher" (lowered_strings r) = true.
Proof.
  unfold direction_of.
  destruct (str_in "higher" (lowered_strings r)).
  - split; reflexivity.
  - destruct (str_in "lower" (lowered_strings r)); split; discriminate.
Qed.

Lemma direction_lower (r : rule) :
  direction_of r = Some Lower <->
  str_in "higher" (lowered_strings r) = false /\
  str_in "lower" (lowered_strings r) = true.
Proof.
  unfold direction_of.
  destruct (str_in "higher" (lowered_strings r));
    destruct (str_in "lower" (lowered_strings r));
    split; try discriminate; try (intros [? ?]; discriminate); auto.
Qed.

Lemma direction_none (r : rule) :
  direction_of r = None <->
  str_in "higher" (lowered_strings r) = false /\
  str_in "lower" (lowered_strings r) = false.
Proof.
  unfold direction_of.
  destruct (str_in "higher" (lowered_strings r));
    destruct (str_in "lower" (lowered_strings r));
    split; try discriminate; try (intros [? ?]; discriminate); auto.
Qed.


(** A rule that is evaluated without an exception either leaves the
    settings as they are or matches and assigns its setting. *)
Lemma apply_rule_ok (links_model links_model' : links) (r : rule) :
  apply_rule nodes_model pump links_model r = Ok links_model' ->
  links_model' = links_model \/
  exists v, matches nodes_model r v /\
            links_model' = set_target_setting links_model pump v.
Proof.
  unfold apply_rule. rewrite !py_index_0, !py_index_1, !py_index_2. intro H.
  destruct (direction_of r) as [[|]|] eqn:Edir.
  - pose proof (proj1 (direction_higher r) Edir) as Hh. rewrite Hh in H.
    destruct r as [|[n|?] [|[?|t] r2]]; cbn -[Qgtb Qle_bool] in H; try discriminate;
      try (destruct (nodes_model n); discriminate).
    destruct (nodes_model n) as [d|] eqn:En; cbn -[Qgtb Qle_bool] in H; try discriminate.
    destruct (Qgtb d t) eqn:Egt.
    + destruct r2 as [|[?|v] rest]; cbn -[Qgtb Qle_bool] in H; try discriminate.
      right. exists v. split; [|congruence].
      exists n, t, d, rest. repeat split; try assumption.
      left. split; [assumption|]. apply Qltb_lt. exact Egt.
    + left. congruence.
  - pose proof (proj1 (direction_lower r) Edir) as [Hh Hl].
    rewrite Hh, Hl in H.
    destruct r as [|[n|?] [|[?|t] r2]]; cbn -[Qgtb Qle_bool] in H; try discriminate;
      try (destruct (nodes_model n); discriminate).
    destruct (nodes_model n) as [d|] eqn:En; cbn -[Qgtb Qle_bool] in H; try discriminate.
    destruct (Qle_bool d t) eqn:Ele.
    + destruct r2 as [|[?|v] rest]; cbn -[Qgtb Qle_bool] in H; try discriminate.
      right. exists v. split; [|congruence].
      exists n, t, d, rest. repeat split; try assumption.
      right. split; [assumption|]. apply Qle_bool_iff. exact Ele.
    + left. congruence.
  - pose proof (proj1 (direction_none r) Edir) as [Hh Hl].
    rewrite Hh, Hl in H. left. congruence.
Qed.

Lemma apply_rules_app (pre post : list rule) (links_model : links) :
  apply_rules nodes_model pump (pre ++ post) links_model =
  match apply_rules nodes_model pump pre links_model with
  | Ok mid => apply_rules nodes_model pump post mid
  | Raise e => Raise e
  end.
Proof.
  revert links_model. induction pre as [|r pre IH]; intro links_model; simpl.
  - reflexivity.
  - destruct (apply_rule nodes_model pump links_model r); [apply IH|reflexivity].
Qed.


Lemma set_target_setting_other (links_model : links) (v : Q) (p : string) :
  p <> pump -> set_target_setting links_model pump v p = links_model p.
Proof.
  intro H. unfold set_target_setting.
  destruct (String.eqb p pump) eqn:E; [|reflexivity].
  apply String.eqb_eq in E. contradiction.
Qed.


(** The rules of a pump only ever assign the setting of that pump. *)
Lemma apply_rules_other (rules : list rule) (p : string) :
  p <> pump ->
  forall links_model links_model',
    apply_rules nodes_model pump rules links_model = Ok links_model' ->
    links_model' p = links_model p.
Proof.
  intro Hp.
  induction rules as [|r rules IH]; intros links_model links_model' H;
    simpl in H.
  - congruence.
  - destruct (apply_rule nodes_model pump links_model r) as [mid|e] eqn:Er;
      [|discriminate].
    rewrite (IH _ _ H).
    destruct (apply_rule_ok _ _ _ Er) as [Hmid | (v & _ & Hmid)];
      subst mid; [reflexivity|].
    apply set_target_setting_other. exact Hp.
Qed.


End RuleEvaluation.

(** ** One control step over all pumps *)
Section ControlStep.

Import Heuristics.

Variable rule_dictionary : rule_dict.
Variable nodes_model : nodes.

Lemma control_pump_other (pump p : string) (links_model links_model' : links) :
  p <> pump ->
  control_pump rule_dictionary nodes_model pump links_model = Ok links_model' ->
  links_model' p = links_model p.
Proof.
  intros Hp H. unfold control_pump in H.
  destruct (dict_get rule_dictionary pump) as [rules|e]; [|discriminate].
  apply (apply_rules_other nodes_model pump rules p Hp _ _ H).
Qed.

Lemma control_step_cons (pump : string) (rest : list string)
    (links_model links_model' : links) :
  control_step rule_dictionary nodes_model (pump :: rest) links_model
    = inl links_model' ->
  exists mid,
    control_pump rule_dictionary nodes_model pump links_model = Ok mid /\
    control_step rule_dictionary nodes_model rest mid = inl links_model'.
Proof.
  simpl. intro H.
  destruct (control_pump rule_dictionary nodes_model pump links_model)
    as [mid|e]; [|discriminate].
  exists mid. split; [reflexivity | exact H].
Qed.

Lemma control_step_not_listed (p : string) (list_of_pumps : list string) :
  ~ In p list_of_pumps ->
  forall links_model links_model',
    control_step rule_dictionary nodes_model list_of_pumps links_model
      = inl links_model' ->
    links_model' p = links_model p.
Proof.
  induction list_of_pumps as [|pump rest IH];
    intros Hnot links_model links_model' H.
  - simpl in H. congruence.
  - destruct (control_step_cons _ _ _ _ H) as (mid & Hpump & Hrest).
    rewrite (IH (fun Hin => Hnot (or_intror Hin)) _ _ Hrest).
    apply (control_pump_other pump p).
    + intro E. apply Hnot. left. symmetry. exact E.
    + exact Hpump.
Qed.



End ControlStep.

Section RuleClaims.

Import Heuristics.

(** Scenario C: the pump is switched on above the threshold and off at
    or below it. *)
Example scenario_C :
  let rules := [ [PStr "n1"; PNum (2 # 10); PNum 1; PStr "higher"];
                 [PStr "n1"; PNum (2 # 10); PNum 0; PStr "lower"] ] in
  (exists on,
      apply_rules (table_depth [("n1"%string, 5 # 10)]) "p1" rules
                  (fun _ => 0) = Ok on /\
      on "p1"%string = 1 /\
      exists off,
        apply_rules (table_depth [("n1"%string, 1 # 10)]) "p1" rules on
          = Ok off /\
        off "p1"%string = 0).
Proof.
  intro rules. eexists. split; [reflexivity|]. split; [reflexivity|].
  eexists. split; reflexivity.
Qed.



End RuleClaims.

Section DirectionClaims.

Import Heuristics.

Lemma str_in_lowered (x : string) (r : rule) :
  str_in x (lowered_strings r) = true ->
  exists s, In (PStr s) r /\ lower s = x.
Proof.
  induction r as [|[s|q] r IH]; simpl; intro H.
  - discriminate.
  - apply orb_true_iff in H. destruct H as [H | H].
    + apply String.eqb_eq in H. exists s. split; [left; reflexivity | auto].
    + destruct (IH H) as (s' & Hin & Hs'). exists s'. split; [right|]; assumption.
  - destruct (IH H) as (s' & Hin & Hs'). exists s'. split; [right|]; assumption.
Qed.

Lemma no_direction (r : rule) :
  (forall s, In (PStr s) r ->
             lower s <> "higher"%string /\ lower s <> "lower"%string) ->
  direction_of r = None.
Proof.
  intro H. apply direction_none. split.
  - destruct (str_in "higher" (lowered_strings r)) eqn:E; [|reflexivity].
    destruct (str_in_lowered _ _ E) as (s & Hin & Hs).
    destruct (H s Hin) as [Hh _]. contradiction.
  - destruct (str_in "lower" (lowered_strings r)) eqn:E; [|reflexivity].
    destruct (str_in_lowered _ _ E) as (s & Hin & Hs).
    destruct (H s Hin) as [_ Hl]. contradiction.
Qed.

(** C10.  A rule none of whose string fields lower-cases to 'higher' or
    to 'lower' is evaluated without an exception and leaves the settings
    as they are, whatever its other fields and whatever the depths; the
    rules of the pump give the same outcome with it as without it. *)
Theorem rule_with_unknown_direction_is_skipped
    (nodes_model : nodes) (pump : string) (links_model : links) (r : rule) :
  (forall s, In (PStr s) r ->
             lower s <> "higher"%string /\ lower s <> "lower"%string) ->
  apply_rule nodes_model pump links_model r = Ok links_model /\
  (forall pre post links0,
      apply_rules nodes_model pump (pre ++ r :: post) links0 =
      apply_rules nodes_model pump (pre ++ post) links0).
Proof.
  intro H. apply no_direction in H. apply direction_none in H.
  destruct H as [Hh Hl].
  assert (Hskip : forall l, apply_rule nodes_model pump l r = Ok l).
  { intro l. unfold apply_rule. rewrite Hh, Hl. reflexivity. }
  split; [apply Hskip|].
  intros pre post links0. rewrite !apply_rules_app.
  destruct (apply_rules nodes_model pump pre links0) as [mid|e];
    [|reflexivity].
  simpl. rewrite Hskip. reflexivity.
Qed.

Lemma rule_with_unknown_direction_is_skipped_witness :
  apply_rule (table_depth [("j_10"%string, 1 # 2)]) "p10_1"
             (fun _ => 0)
             [PStr "j_10"; PNum (2 # 10); PNum 1; PStr "Higher than"]
  = Ok (fun _ => 0) /\
  apply_rule (fun _ => None) "p10_1"
             (fun _ => 0)
             [PStr "no_such_node"; PStr "0.2"; PNum 1; PStr "above"]
  = Ok (fun _ => 0).
Proof.
  split.
  - apply (rule_with_unknown_direction_is_skipped
             (table_depth [("j_10"%string, 1 # 2)]) "p10_1" (fun _ => 0)
             [PStr "j_10"; PNum (2 # 10); PNum 1; PStr "Higher than"]).
    intros s Hin. simpl in Hin.
    destruct Hin as [E | [E | [E | [E | []]]]]; try discriminate E;
      injection E as <-; split; vm_compute; discriminate.
  - apply (rule_with_unknown_direction_is_skipped
             (fun _ => None) "p10_1" (fun _ => 0)
             [PStr "no_such_node"; PStr "0.2"; PNum 1; PStr "above"]).
    intros s Hin. simpl in Hin.
    destruct Hin as [E | [E | [E | [E | []]]]]; try discriminate E;
      injection E as <-; split; vm_compute; discriminate.
Defined.

End DirectionClaims.

(** ** A pump without rules *)
Section MissingRules.

Import Heuristics.

Variable W : Type.
Variable advance : links -> W -> W.
Variable depth : W -> nodes.
Variable total_inflow : W -> string -> Q.
Variable current_time : W -> Z.

Lemma control_step_missing (rule_dictionary : rule_dict)
    (nodes_model : nodes) (before after : list string) (pump : string)
    (links_model mid : links) :
  control_step rule_dictionary nodes_model before links_model = inl mid ->
  dict_get rule_dictionary pump = Raise KeyError ->
  control_step rule_dictionary nodes_model (before ++ pump :: after)
               links_model
    = inr (not_specified pump).
Proof.
  revert links_model.
  induction before as [|q before IH]; intros links_model Hbefore Hmissing.
  - simpl. unfold control_pump. rewrite Hmissing. reflexivity.
  - simpl in *.
    destruct (control_pump rule_dictionary nodes_model q links_model)
      as [l|e]; [|discriminate].
    apply IH; assumption.
Qed.

(** When the pumps enumerated before a pump without an entry are
    evaluated without an exception, the first control step ends the
    method: it returns, as its value, the AttributeError object naming
    that pump; nothing is raised. *)
Lemma missing_pump_object_is_returned (rule_dictionary : rule_dict)
    (before after list_of_outfalls : list string) (pump : string)
    (n : nat) (w0 : W) (links0 mid : links) :
  rule_dictionary <> [] ->
  control_step rule_dictionary (depth (advance links0 w0)) before links0
    = inl mid ->
  dict_get rule_dictionary pump = Raise KeyError ->
  run_model W advance depth total_inflow current_time rule_dictionary
            (before ++ pump :: after) list_of_outfalls (S n) w0 links0
    = Ok (ExceptionObject (not_specified pump)).
Proof.
  intros Hne Hbefore Hmissing. unfold run_model.
  destruct rule_dictionary as [|[k v] d]; [contradiction|].
  rewrite py_index_0. cbn [map nth_error of_option sim_loop].
  rewrite (control_step_missing _ _ before after pump links0 mid
             Hbefore Hmissing).
  reflexivity.
Qed.

End MissingRules.

Section MissingRulesClaim.

Import Heuristics.

(** C7.  A run on the code: the dictionary has rules for [p1] only, the
    engine enumerates the pumps [p1] and [p2].  The first control step
    ends the method, which hands the object
    [AttributeError('Pump p2 Not Specified in Rules, please add')] to
    [return]: the call returns normally with that object as its value and
    raises nothing. *)
Theorem missing_pump_error_is_returned_not_raised :
  let rule_dictionary : rule_dict :=
    [("p1"%string,
      [ [PStr "n1"; PNum (2 # 10); PNum 1; PStr "higher"];
        [PStr "n1"; PNum (2 # 10); PNum 0; PStr "lower"] ])] in
  let outcome :=
    run_model nat (fun _ (w : nat) => S w)
              (fun _ => table_depth [("n1"%string, 1 # 2)])
              (fun _ _ => 0)
              (fun w => Z.of_nat w)
              rule_dictionary ["p1"; "p2"]%string ["out1"]%string
              3 0%nat (fun _ => 0) in
  outcome =
    Ok (ExceptionObject
          (AttributeError "Pump p2 Not Specified in Rules, please add")) /\
  ~ raises outcome.
Proof.
  intros rule_dictionary outcome. split.
  - reflexivity.
  - intros [e He]. discriminate He.
Qed.

End MissingRulesClaim.

(** * Further properties of the code *)

(** ** [run_CAS_model]: what the returned pair tells *)
Section MassBalanceMore.

Import CentralBasinApproach.

Variables capacity wwtp_capacity time_step : Q.

Local Abbreviation step := (cas_step capacity wwtp_capacity time_step).
Local Abbreviation loop := (cas_loop capacity wwtp_capacity time_step).

Lemma cas_loop_app (l1 l2 : list Q) (st : cas_state) :
  loop (l1 ++ l2) st = loop l2 (loop l1 st).
Proof. unfold cas_loop. apply fold_left_app. Qed.

(** The loop only ever appends to the list of recorded values. *)
Lemma tracked_extends (inflow : list Q) (st : cas_state) :
  exists ext,
    storage_tracked (loop inflow st) = storage_tracked st ++ ext.
Proof.
  revert st. induction inflow as [|q inflow IH]; intro st.
  - exists []. simpl. rewrite app_nil_r. reflexivity.
  - destruct (IH (step st q)) as [ext Hext].
    assert (Hstep : exists v, storage_tracked (step st q) =
                              storage_tracked st ++ [v]).
    { unfold cas_step. destruct (Qgtb _ _); simpl; eexists; reflexivity. }
    destruct Hstep as [v Hv].
    exists (v :: ext). unfold cas_loop in *. simpl.
    rewrite Hext, Hv, <- app_assoc. reflexivity.
Qed.

(** A step that makes the overflow total grow records the value 0. *)
Lemma growth_records_zero (st : cas_state) (q : Q) :
  total_cso_volume st < total_cso_volume (step st q) ->
  storage_tracked (step st q) = storage_tracked st ++ [0].
Proof.
  intro Hgrow.
  destruct (cas_step_cases wwtp_capacity time_step st q) as [Hov | Hab].
  - rewrite (cas_step_overflow capacity _ _ _ _ Hov). reflexivity.
  - rewrite (cas_step_absorb capacity _ _ _ _ Hab) in Hgrow.
    simpl in Hgrow. exfalso. apply (Qlt_irrefl _ Hgrow).
Qed.

Lemma firstn_snoc_nth (inflow : list Q) (k : nat) (q : Q) :
  nth_error inflow k = Some q ->
  firstn (S k) inflow = firstn k inflow ++ [q].
Proof.
  revert k. induction inflow as [|x l IH]; intros [|k] Eq; simpl in *;
    try discriminate.
  - congruence.
  - rewrite (IH _ Eq). reflexivity.
Qed.

(** The overflow added over a run is at most the inflow volume. *)
Lemma overflow_le_inflow_volume (inflow : list Q) :
  0 <= wwtp_capacity -> 0 <= time_step ->
  Forall (fun q => 0 <= q) inflow ->
  forall st,
    0 <= available_storage st ->
    0 <= capacity ->
    total_cso_volume (loop inflow st) <=
    total_cso_volume st +
    fold_right (fun q acc => q * time_step + acc) 0 inflow.
Proof.
  intros Hw Hts Hall.
  induction Hall as [|q inflow Hq _ IH]; intros st Hav Hcap.
  - simpl. lra.
  - assert (Hqt : 0 <= q * time_step) by (apply Qmult_le_0_compat; assumption).
    assert (Hwt : 0 <= wwtp_capacity * time_step)
      by (apply Qmult_le_0_compat; assumption).
    assert (Hstep : total_cso_volume (step st q) <=
                    total_cso_volume st + q * time_step /\
                    0 <= available_storage (step st q)).
    { destruct (cas_step_cases wwtp_capacity time_step st q) as [Hov | Hab].
      - rewrite (cas_step_overflow capacity _ _ _ _ Hov). simpl. lra.
      - rewrite (cas_step_absorb capacity _ _ _ _ Hab). cbv zeta. simpl.
        split; [lra|]. apply py_min_glb; lra. }
    destruct Hstep as [Hle Hav'].
    specialize (IH (step st q) Hav' Hcap).
    unfold cas_loop in *. simpl. lra.
Qed.

End MassBalanceMore.

Section MassBalanceProperties.

Import CentralBasinApproach.

(** X2.  For a capacity, treatment capacity and time step that are not
    negative and an inflow without negative values, the returned overflow
    lies between 0 and the total inflow volume, the sum of
    [inflow_t*time_step] over the samples. *)
Theorem overflow_between_zero_and_inflow_volume
    (self : Central_Basin_Approach)
    (capacity wwtp_capacity time_step : Q) (inflow : list Q) :
  total_system_volume self = Some capacity ->
  0 <= capacity ->
  0 <= wwtp_capacity ->
  0 <= time_step ->
  Forall (fun q => 0 <= q) inflow ->
  exists total tracked,
    run_CAS_model self wwtp_capacity inflow time_step = Ok (total, tracked) /\
    0 <= total /\
    total <= fold_right (fun q acc => q * time_step + acc) 0 inflow.
Proof.
  intros Hself Hcap Hw Hts Hall.
  unfold run_CAS_model. rewrite Hself. simpl.
  eexists. eexists. split; [reflexivity|]. split.
  - assert (Hmono : forall l st,
               in_range capacity st ->
               total_cso_volume st <=
               total_cso_volume
                 (cas_loop capacity wwtp_capacity time_step l st)).
    { induction l as [|q l IH]; intros st Hst.
      - apply Qle_refl.
      - unfold cas_loop in *. simpl.
        apply Qle_trans
          with (total_cso_volume
                  (cas_step capacity wwtp_capacity time_step st q)).
        + apply overflow_step_mono. destruct Hst as [[H _] _]. exact H.
        + apply IH. apply in_range_step; assumption. }
    apply (Hmono inflow (cas_init capacity)).
    apply in_range_init. exact Hcap.
  - pose proof (overflow_le_inflow_volume capacity wwtp_capacity time_step
                  inflow Hw Hts Hall (cas_init capacity) Hcap Hcap) as H.
    simpl in H. lra.
Qed.

Lemma overflow_between_zero_and_inflow_volume_witness :
  exists total tracked,
    run_CAS_model {| model_path := "model.inp";
                     total_system_volume := Some 100 |}
                  0 [50; 80] 1 = Ok (total, tracked) /\
    0 <= total /\
    total <= fold_right (fun q acc => q * 1 + acc) 0 [50; 80].
Proof.
  apply (overflow_between_zero_and_inflow_volume
           {| model_path := "model.inp"; total_system_volume := Some 100 |}
           100 0 1 [50; 80]).
  - reflexivity.
  - discriminate.
  - discriminate.
  - discriminate.
  - repeat constructor; discriminate.
Defined.

(** X3.  Whenever the overflow total grows at sample [k], the storage
    value recorded for that sample in the returned list is 0. *)
Theorem overflow_growth_records_empty_storage
    (self : Central_Basin_Approach)
    (capacity wwtp_capacity time_step total : Q) (inflow tracked : list Q)
    (k : nat) :
  total_system_volume self = Some capacity ->
  run_CAS_model self wwtp_capacity inflow time_step = Ok (total, tracked) ->
  overflow_after capacity wwtp_capacity time_step inflow k <
  overflow_after capacity wwtp_capacity time_step inflow (S k) ->
  nth_error tracked k = Some 0.
Proof.
  intros Hself Hrun Hgrow.
  unfold run_CAS_model in Hrun. rewrite Hself in Hrun. simpl in Hrun.
  injection Hrun as _ Htr. subst tracked.
  unfold overflow_after in Hgrow.
  destruct (nth_error inflow k) as [q|] eqn:Eq.
  2:{ apply nth_error_None in Eq.
      rewrite !firstn_all2 in Hgrow by lia.
      exfalso. apply (Qlt_irrefl _ Hgrow). }
  assert (Hk : (k < List.length inflow)%nat)
    by (apply nth_error_Some; congruence).
  rewrite (firstn_snoc_nth inflow k q Eq) in Hgrow.
  rewrite cas_loop_snoc in Hgrow.
  apply growth_records_zero in Hgrow.
  rewrite <- (firstn_skipn (S k) inflow) at 1.
  rewrite cas_loop_app.
  destruct (tracked_extends capacity wwtp_capacity time_step
              (skipn (S k) inflow)
              (cas_loop capacity wwtp_capacity time_step
                        (firstn (S k) inflow) (cas_init capacity)))
    as [ext Hext].
  rewrite Hext.
  rewrite (firstn_snoc_nth inflow k q Eq), cas_loop_snoc, Hgrow.
  rewrite <- app_assoc.
  rewrite nth_error_app2; rewrite tracked_length_loop; simpl;
    rewrite length_firstn; rewrite Nat.min_l by lia; [|lia].
  rewrite Nat.sub_diag. reflexivity.
Qed.

Lemma overflow_growth_records_empty_storage_witness :
  nth_error [50; 0; 0] 1 = Some 0.
Proof.
  apply (overflow_growth_records_empty_storage
           {| model_path := "model.inp"; total_system_volume := Some 100 |}
           100 0 10 800 [5; 80; 0] [50; 0; 0] 1).
  - reflexivity.
  - reflexivity.
  - reflexivity.
Defined.

End MassBalanceProperties.

(** ** [create_CAS_model]: lookup, integration and the stored total *)
Section LookupMore.

Import CentralBasinApproach.

(** The head of a filtered range is the first index of the range that
    passes the test. *)
Lemma filter_seq_head (p : nat -> bool) (n : nat) :
  forall (s k : nat) (rest : list nat),
    filter p (seq s n) = k :: rest ->
    (s <= k < s + n)%nat /\ p k = true /\
    (forall j, (s <= j < k)%nat -> p j = false).
Proof.
  induction n as [|n IH]; intros s k rest H; simpl in H.
  - discriminate.
  - destruct (p s) eqn:Eps.
    + injection H as <- _.
      split; [lia|]. split; [exact Eps|]. intros j Hj. lia.
    + destruct (IH (S s) k rest H) as (Hk & Hpk & Hbefore).
      split; [lia|]. split; [exact Hpk|].
      intros j Hj. destruct (Nat.eq_dec j s) as [-> | Hne];
        [exact Eps | apply Hbefore; lia].
Qed.

(** The head of [indices_where] is the first position that passes. *)
Lemma indices_where_head {A : Type} (p : A -> bool) (d : A) (l : list A) :
  forall (i k : nat) (rest : list nat),
    indices_where p l i = k :: rest ->
    (i <= k < i + List.length l)%nat /\
    p (nth (k - i) l d) = true /\
    (forall j, (j < k - i)%nat -> p (nth j l d) = false).
Proof.
  induction l as [|x l IH]; intros i k rest H; simpl in H.
  - discriminate.
  - destruct (p x) eqn:Epx.
    + injection H as <- _. rewrite Nat.sub_diag. simpl.
      split; [lia|]. split; [exact Epx|]. intros j Hj. lia.
    + destruct (IH (S i) k rest H) as (Hk & Hpk & Hbefore).
      replace (k - i)%nat with (S (k - S i)) by lia. simpl.
      split; [lia|]. split; [exact Hpk|].
      intros [|j] Hj; [exact Epx | apply Hbefore; lia].
Qed.

Lemma py_index_0_head {A : Type} (l : list A) (x : A) :
  py_index l 0 = Ok x -> exists rest, l = x :: rest.
Proof.
  rewrite py_index_0. destruct l as [|y rest]; simpl; intro H.
  - discriminate.
  - injection H as ->. exists rest. reflexivity.
Qed.

Lemma py_index_of_nat {A : Type} (l : list A) (k : nat) :
  py_index l (Z.of_nat k) = of_option IndexError (nth_error l k).
Proof.
  unfold py_index.
  destruct (0 <=? Z.of_nat k)%Z eqn:E.
  - rewrite Nat2Z.id. reflexivity.
  - apply Z.leb_gt in E. lia.
Qed.

End LookupMore.

Section CreateModelProperties.

Import CentralBasinApproach.

(** X4.  The storage line of a name is the first line, counted from the
    first line that contains '[STORAGE]', in which the name occurs: lines
    above that header are never used, and the name is matched as a part
    of the line, not as its first field. *)
Theorem storage_line_is_first_match_after_header
    (read_model : list string) (name line : string) :
  storage_line read_model name = Ok line ->
  exists start k : nat,
    contains "[STORAGE]" (nth start read_model EmptyString) = true /\
    (forall j, (j < start)%nat ->
               contains "[STORAGE]" (nth j read_model EmptyString) = false) /\
    (start <= k < List.length read_model)%nat /\
    nth_error read_model k = Some line /\
    contains name line = true /\
    (forall j, (start <= j < k)%nat ->
               contains name (nth j read_model EmptyString) = false).
Proof.
  unfold storage_line. intro H.
  destruct (py_index (indices_where (contains "[STORAGE]") read_model 0) 0)
    as [start|e] eqn:Es; [|discriminate].
  destruct (py_index
              (filter (fun k => contains name (nth k read_model EmptyString))
                      (seq start (List.length read_model - start))) 0)
    as [k|e] eqn:Ek; [|discriminate].
  apply py_index_0_head in Es. destruct Es as [rest Es].
  apply py_index_0_head in Ek. destruct Ek as [rest' Ek].
  destruct (indices_where_head (contains "[STORAGE]") EmptyString
              read_model 0 start rest Es) as (Hs & Hps & Hbs).
  destruct (filter_seq_head _ _ _ _ _ Ek) as (Hk & Hpk & Hbk).
  rewrite Nat.sub_0_r in Hps, Hbs.
  rewrite py_index_of_nat in H.
  destruct (nth_error read_model k) as [l|] eqn:El; simpl in H;
    [|discriminate].
  injection H as ->.
  exists start, k. repeat split; try assumption; try lia.
  rewrite (nth_error_nth read_model k EmptyString El) in Hpk. exact Hpk.
Qed.

Lemma storage_line_is_first_match_after_header_witness :
  exists start k : nat,
    contains "[STORAGE]" (nth start example_inp EmptyString) = true /\
    (forall j, (j < start)%nat ->
               contains "[STORAGE]" (nth j example_inp EmptyString) = false) /\
    (start <= k < List.length example_inp)%nat /\
    nth_error example_inp k = Some "SU2 0 5 0 FUNCTIONAL 100 0 0"%string /\
    contains "SU2" "SU2 0 5 0 FUNCTIONAL 100 0 0" = true /\
    (forall j, (start <= j < k)%nat ->
               contains "SU2" (nth j example_inp EmptyString) = false).
Proof.
  apply (storage_line_is_first_match_after_header example_inp "SU2").
  reflexivity.
Defined.

(** X5.  When every spec of a non-empty [storage] list resolves, the
    method returns the sum of the volumes, taken in list order from 0, and
    stores that same value; what the object held before plays no part, so
    building again replaces the capacity instead of adding to it. *)
Theorem successful_build_returns_and_stores_sum
    (float : string -> option Q) (self : Central_Basin_Approach)
    (read_model : list string) (storage : list (string * Q))
    (vols : list Q) :
  storage <> [] ->
  Forall2 (fun stor v => storage_volume float read_model stor = Ok v)
          storage vols ->
  create_CAS_model float self read_model storage =
    ({| model_path := model_path self;
        total_system_volume := Some (fold_left Qplus vols 0) |},
     Ok (fold_left Qplus vols 0)).
Proof.
  intros Hne Hall. unfold create_CAS_model.
  rewrite (storage_loop_completes float read_model storage vols Hall).
  destruct storage; [contradiction | reflexivity].
Qed.

Lemma successful_build_returns_and_stores_sum_witness :
  create_CAS_model decimal_float
    {| model_path := "model.inp"%string; total_system_volume := Some 7 |}
    example_inp [("SU2"%string, 2); ("SU1"%string, 3 # 2)] =
  ({| model_path := "model.inp"%string;
      total_system_volume :=
        Some (fold_left Qplus
                [2 * 100;
                 0 + ((100 + 100) / 2) * (1 - 0) + ((100 + 300) / 2) * (2 - 1)]
                0) |},
   Ok (fold_left Qplus
         [2 * 100;
          0 + ((100 + 100) / 2) * (1 - 0) + ((100 + 300) / 2) * (2 - 1)]
         0)).
Proof.
  apply (successful_build_returns_and_stores_sum decimal_float).
  - discriminate.
  - repeat constructor.
Defined.

End CreateModelProperties.

(** ** The integrator: when it returns, and how the result grows *)
Section IntegratorMore.

Import CentralBasinApproach.

Variable float : string -> option Q.

Lemma trapezoid_nonneg (d0 a0 d1 a1 : Q) :
  0 <= a0 -> 0 <= a1 -> d0 < d1 -> 0 <= ((a0 + a1) / 2) * (d1 - d0).
Proof.
  intros H0 H1 Hd. apply Qmult_le_0_compat; [|lra].
  unfold Qdiv. apply Qmult_le_0_compat; [lra | discriminate].
Qed.

(** With areas that are not negative over increasing depths, the loop
    never returns less than the volume it starts from. *)
Lemma integrate_ge_start (rows : list string) (curve : list (Q * Q)) :
  rows_read_as float rows curve ->
  increasing (map fst curve) ->
  Forall (fun p => 0 <= snd p) curve ->
  forall threshold sp volume v,
    integrate float rows threshold sp volume = Ok v ->
    volume <= v.
Proof.
  induction 1 as [|row0 [d0 a0] rows curve [Hd0 Ha0] Hrows IH];
    intros Hinc Hpos threshold sp volume v H.
  - simpl in H. destruct (Qltb sp threshold); [discriminate|].
    injection H as <-. apply Qle_refl.
  - destruct (Qlt_le_dec sp threshold) as [Hlt | Hge].
    2:{ rewrite (integrate_stops float _ _ _ _ Hge) in H.
        injection H as <-. apply Qle_refl. }
    simpl in Hd0, Ha0.
    destruct Hrows as [|row1 [d1 a1] rows curve [Hd1 Ha1] Hrows].
    { simpl in H. apply Qltb_lt in Hlt. rewrite Hlt, Ha0 in H.
      discriminate. }
    simpl in Hd1, Ha1.
    rewrite (integrate_advances float row0 row1 rows d0 a0 d1 a1
               threshold sp volume Hd0 Ha0 Hd1 Ha1 Hlt) in H.
    destruct Hinc as [H01 Hinc].
    inversion Hpos as [|? ? Hp0 Hpos']; subst.
    inversion Hpos' as [|? ? Hp1 _]; subst.
    simpl in H01, Hp0, Hp1.
    pose proof (trapezoid_nonneg d0 a0 d1 a1 Hp0 Hp1 H01) as Htrap.
    specialize (IH Hinc Hpos' _ _ _ _ H). lra.
Qed.

Lemma integrate_mono (rows : list string) (curve : list (Q * Q)) :
  rows_read_as float rows curve ->
  increasing (map fst curve) ->
  Forall (fun p => 0 <= snd p) curve ->
  forall t1 t2 sp volume v1 v2,
    t1 <= t2 ->
    integrate float rows t1 sp volume = Ok v1 ->
    integrate float rows t2 sp volume = Ok v2 ->
    v1 <= v2.
Proof.
  intros Hrows.
  induction Hrows as [|row0 [d0 a0] rows curve [Hd0 Ha0] Hrows IH];
    intros Hinc Hpos t1 t2 sp volume v1 v2 Ht H1 H2.
  - simpl in H1, H2.
    destruct (Qltb sp t1); [discriminate|].
    destruct (Qltb sp t2); [discriminate|].
    injection H1 as <-. injection H2 as <-. apply Qle_refl.
  - destruct (Qlt_le_dec sp t1) as [Hlt | Hge].
    2:{ rewrite (integrate_stops float _ _ _ _ Hge) in H1.
        injection H1 as <-.
        apply (integrate_ge_start
                 (row0 :: rows) ((d0, a0) :: curve)
                 (Forall2_cons _ _ (conj Hd0 Ha0) Hrows) Hinc Hpos
                 t2 sp volume v2 H2). }
    assert (Hlt2 : sp < t2) by lra.
    simpl in Hd0, Ha0.
    destruct Hrows as [|row1 [d1 a1] rows curve [Hd1 Ha1] Hrows].
    { simpl in H1. apply Qltb_lt in Hlt. rewrite Hlt, Ha0 in H1.
      discriminate. }
    simpl in Hd1, Ha1.
    rewrite (integrate_advances float row0 row1 rows d0 a0 d1 a1
               t1 sp volume Hd0 Ha0 Hd1 Ha1 Hlt) in H1.
    rewrite (integrate_advances float row0 row1 rows d0 a0 d1 a1
               t2 sp volume Hd0 Ha0 Hd1 Ha1 Hlt2) in H2.
    destruct Hinc as [H01 Hinc].
    inversion Hpos as [|? ? Hp0 Hpos']; subst.
    apply (IH Hinc Hpos' t1 t2 _ _ v1 v2 Ht H1 H2).
Qed.

End IntegratorMore.

Section IntegratorProperties.

Import CentralBasinApproach.

(** X8.  For rows that read as a curve with strictly increasing depths
    and areas that are not negative, the integrated volume is not
    negative and does not decrease when the threshold is raised. *)
Theorem integrated_volume_grows_with_threshold
    (float : string -> option Q) (rows : list string)
    (curve : list (Q * Q)) (t1 t2 v1 v2 : Q) :
  rows_read_as float rows curve ->
  increasing (map fst curve) ->
  Forall (fun p => 0 <= snd p) curve ->
  t1 <= t2 ->
  integrate float rows t1 0 0 = Ok v1 ->
  integrate float rows t2 0 0 = Ok v2 ->
  0 <= v1 /\ v1 <= v2.
Proof.
  intros Hrows Hinc Hpos Ht H1 H2. split.
  - apply (integrate_ge_start float rows curve Hrows Hinc Hpos t1 0 0 v1 H1).
  - apply (integrate_mono float rows curve Hrows Hinc Hpos t1 t2 0 0 v1 v2
             Ht H1 H2).
Qed.

Lemma integrated_volume_grows_with_threshold_witness :
  0 <= 0 + ((100 + 100) / 2) * (1 - 0) /\
  0 + ((100 + 100) / 2) * (1 - 0) <=
  0 + ((100 + 100) / 2) * (1 - 0) + ((100 + 300) / 2) * (2 - 1).
Proof.
  apply (integrated_volume_grows_with_threshold decimal_float
           ["c1 Storage 0 100"; "c1 1 100"; "c1 2 300"]%string
           [(0, 100); (1, 100); (2, 300)] (1 # 2) (3 # 2)).
  - repeat constructor.
  - simpl. repeat split.
  - repeat constructor; discriminate.
  - discriminate.
  - reflexivity.
  - reflexivity.
Defined.

End IntegratorProperties.

(** ** Rule evaluation: what does not depend on the settings *)
Section RuleEvaluationMore.

Import Heuristics.

Variable nodes_model : nodes.

(** Whether a rule raises, and which setting it assigns, is decided by
    the rule and the depths alone. *)
Lemma apply_rule_uniform (pump : string) (r : rule) (l m : links) :
  match apply_rule nodes_model pump l r, apply_rule nodes_model pump m r with
  | Ok l', Ok m' =>
      (l' = l /\ m' = m) \/
      (exists v, l' = set_target_setting l pump v /\
                 m' = set_target_setting m pump v)
  | Raise e, Raise e' => e = e'
  | _, _ => False
  end.
Proof.
  unfold apply_rule, assign_target.
  destruct (str_in "higher" (lowered_strings r));
    [|destruct (str_in "lower" (lowered_strings r))];
    try (left; split; reflexivity);
    destruct (py_index r 0) as [id|]; try reflexivity;
    destruct (node_depth nodes_model id) as [d|]; try reflexivity;
    destruct (py_index r 1) as [t|]; try reflexivity.
  - destruct (depth_gt d t) as [[|]|]; try reflexivity;
      [|left; split; reflexivity].
    destruct (py_index r 2) as [[s|v]|]; try reflexivity.
    right. exists v. split; reflexivity.
  - destruct (depth_le d t) as [[|]|]; try reflexivity;
      [|left; split; reflexivity].
    destruct (py_index r 2) as [[s|v]|]; try reflexivity.
    right. exists v. split; reflexivity.
Qed.

Lemma apply_rules_uniform (pump : string) (rules : list rule) :
  forall l m l',
    apply_rules nodes_model pump rules l = Ok l' ->
    exists m',
      apply_rules nodes_model pump rules m = Ok m' /\
      (l pump = m pump -> l' pump = m' pump).
Proof.
  induction rules as [|r rules IH]; intros l m l' H; simpl in H |- *.
  - injection H as <-. exists m. split; [reflexivity | auto].
  - pose proof (apply_rule_uniform pump r l m) as Hu.
    destruct (apply_rule nodes_model pump l r) as [l1|e]; [|discriminate].
    destruct (apply_rule nodes_model pump m r) as [m1|e]; [|contradiction].
    destruct (IH l1 m1 l' H) as (m' & Hm' & Heq).
    exists m'. split; [exact Hm'|].
    intro Hlm. apply Heq.
    destruct Hu as [[-> ->] | (v & -> & ->)]; [exact Hlm|].
    unfold set_target_setting. rewrite String.eqb_refl. reflexivity.
Qed.

Variable rule_dictionary : rule_dict.

Lemma control_pump_uniform (pump : string) (l m l' : links) :
  control_pump rule_dictionary nodes_model pump l = Ok l' ->
  exists m',
    control_pump rule_dictionary nodes_model pump m = Ok m' /\
    (l pump = m pump -> l' pump = m' pump).
Proof.
  unfold control_pump.
  destruct (dict_get rule_dictionary pump) as [rules|e]; [|discriminate].
  apply apply_rules_uniform.
Qed.

(** After a step that runs to its end, the setting of each listed pump
    is the one its own rules give from the settings the step began
    with. *)
Lemma control_step_each (list_of_pumps : list string) :
  NoDup list_of_pumps ->
  forall links_model links_model',
    control_step rule_dictionary nodes_model list_of_pumps links_model
      = inl links_model' ->
    forall p, In p list_of_pumps ->
      exists lp,
        control_pump rule_dictionary nodes_model p links_model = Ok lp /\
        links_model' p = lp p.
Proof.
  induction list_of_pumps as [|q rest IH];
    intros Hnd links_model links_model' H p Hin.
  - contradiction.
  - destruct (control_step_cons rule_dictionary nodes_model q rest _ _ H)
      as (mid & Hq & Hrest).
    inversion Hnd as [|? ? Hfresh Hnd']; subst.
    destruct Hin as [<- | Hin].
    + exists mid. split; [exact Hq|].
      apply (control_step_not_listed rule_dictionary nodes_model q rest
               Hfresh _ _ Hrest).
    + destruct (IH Hnd' mid links_model' Hrest p Hin) as (lp' & Hp & Hval).
      destruct (control_pump_uniform p mid links_model lp' Hp)
        as (lp & Hlp & Heq).
      exists lp. split; [exact Hlp|].
      rewrite Hval. apply Heq.
      apply (control_pump_other rule_dictionary nodes_model q p _ _).
      * intro E. subst p. contradiction.
      * exact Hq.
Qed.

(** A step runs to its end as soon as every listed pump evaluates
    without an exception from the settings the step began with. *)
Lemma control_step_completes (list_of_pumps : list string) :
  forall links_model,
    (forall p, In p list_of_pumps ->
       exists lp,
         control_pump rule_dictionary nodes_model p links_model = Ok lp) ->
    exists links_model',
      control_step rule_dictionary nodes_model list_of_pumps links_model
        = inl links_model'.
Proof.
  induction list_of_pumps as [|q rest IH]; intros links_model Hall.
  - exists links_model. reflexivity.
  - destruct (Hall q (or_introl eq_refl)) as [mid Hq].
    simpl. rewrite Hq. apply IH.
    intros p Hin. destruct (Hall p (or_intror Hin)) as [lp Hp].
    destruct (control_pump_uniform p links_model mid lp Hp) as (m' & Hm' & _).
    exists m'. exact Hm'.
Qed.

End RuleEvaluationMore.

(** ** [run_model]: outcomes of a whole run *)
Section RunModelMore.

Import Heuristics.

Variable W : Type.
Variable advance : links -> W -> W.
Variable depth : W -> nodes.
Variable total_inflow : W -> string -> Q.
Variable current_time : W -> Z.

Variable rule_dictionary : rule_dict.
Variables list_of_pumps list_of_outfalls : list string.

Local Abbreviation the_loop :=
  (sim_loop W advance depth total_inflow current_time rule_dictionary
            list_of_pumps list_of_outfalls).

(** Each control step that is completed adds one value to every series
    and one time stamp. *)
Lemma sim_loop_shape (n_steps : nat) :
  forall (m : nat) (w : W) (links_model : links)
         (outfall_results outfall_results' : list (list Q))
         (times times' : list Z),
    List.length outfall_results = List.length list_of_outfalls ->
    Forall (fun s => List.length s = m) outfall_results ->
    the_loop n_steps w links_model outfall_results times
      = inl (outfall_results', times') ->
    List.length outfall_results' = List.length list_of_outfalls /\
    Forall (fun s => List.length s = (m + n_steps)%nat) outfall_results' /\
    List.length times' = (List.length times + n_steps)%nat.
Proof.
  induction n_steps as [|n IH];
    intros m w links_model res res' times times' Hlen Hall H; simpl in H.
  - injection H as <- <-. rewrite !Nat.add_0_r. auto.
  - destruct (control_step rule_dictionary
                (depth (advance links_model w)) list_of_pumps links_model)
      as [links_model'|e]; [|discriminate].
    apply (IH (S m)) in H.
    + destruct H as (H1 & H2 & H3). split; [exact H1|]. split.
      * replace (m + S n)%nat with (S m + n)%nat by lia. exact H2.
      * rewrite H3, length_app. simpl. lia.
    + rewrite length_map, length_combine, Hlen. apply Nat.min_id.
    + apply Forall_forall. intros s Hs.
      apply in_map_iff in Hs. destruct Hs as ([s0 o] & <- & Hin).
      apply in_combine_l in Hin. rewrite Forall_forall in Hall.
      simpl. rewrite length_app, (Hall s0 Hin). simpl. lia.
Qed.

End RunModelMore.

Section RunModelProperties.

Import Heuristics.

(** The object a control step hands back names one of the listed
    pumps. *)
Lemma control_step_error_names_pump (rule_dictionary : rule_dict)
    (nodes_model : nodes) (list_of_pumps : list string) :
  forall (links_model : links) (e : exn),
    control_step rule_dictionary nodes_model list_of_pumps links_model
      = inr e ->
    exists pump, In pump list_of_pumps /\ e = not_specified pump.
Proof.
  induction list_of_pumps as [|q rest IH]; intros links_model e H;
    simpl in H.
  - discriminate.
  - destruct (control_pump rule_dictionary nodes_model q links_model)
      as [l1|e1].
    + destruct (IH l1 e H) as (pump & Hin & He).
      exists pump. split; [right|]; assumption.
    + injection H as <-. exists q. split; [left|]; reflexivity.
Qed.

(** X10.  When [run_model] returns a table, the table has the outfalls
    as its columns, one series per outfall, and every series holds one
    value per control step of the simulated period. *)
Theorem returned_table_is_aligned
    (W : Type) (advance : links -> W -> W) (depth : W -> nodes)
    (total_inflow : W -> string -> Q) (current_time : W -> Z)
    (rule_dictionary : rule_dict)
    (list_of_pumps list_of_outfalls : list string)
    (n_steps : nat) (w0 : W) (links0 : links) (df : DataFrame) :
  run_model W advance depth total_inflow current_time rule_dictionary
            list_of_pumps list_of_outfalls n_steps w0 links0
    = Ok (Frame df) ->
  columns df = list_of_outfalls /\
  List.length (series df) = List.length list_of_outfalls /\
  Forall (fun s => List.length s = n_steps) (series df).
Proof.
  unfold run_model. intro H.
  destruct (py_index (map snd rule_dictionary) 0); [|discriminate].
  destruct (sim_loop W advance depth total_inflow current_time
                     rule_dictionary list_of_pumps list_of_outfalls
                     n_steps w0 links0
                     (map (fun _ => []) list_of_outfalls) [])
    as [[res times]|e] eqn:E; [|discriminate].
  injection H as <-. simpl.
  destruct (sim_loop_shape W advance depth total_inflow current_time
              rule_dictionary list_of_pumps list_of_outfalls n_steps
              0 w0 links0 (map (fun _ => []) list_of_outfalls) res [] times
              (length_map _ _)) as (H1 & H2 & _).
  - apply Forall_forall. intros s Hs. apply in_map_iff in Hs.
    destruct Hs as (o & <- & _). reflexivity.
  - exact E.
  - auto.
Qed.

Lemma returned_table_is_aligned_witness :
  columns {| columns := ["out1"; "out2"]%string;
             series := [[7; 7; 7]; [7; 7; 7]] |}
    = ["out1"; "out2"]%string /\
  List.length [[7; 7; 7]; [7; 7; 7]] = 2%nat /\
  Forall (fun s : list Q => List.length s = 3%nat) [[7; 7; 7]; [7; 7; 7]].
Proof.
  apply (returned_table_is_aligned
           nat (fun _ w => S w)
           (fun _ => table_depth [("j_10"%string, 1 # 2); ("j_2"%string, 2)])
           (fun _ _ => 7) (fun w => Z.of_nat w)
           example_rules ["p10_1"; "p_2_1"]%string ["out1"; "out2"]%string
           3 0%nat (fun _ => 0)
           {| columns := ["out1"; "out2"]%string;
              series := [[7; 7; 7]; [7; 7; 7]] |}).
  reflexivity.
Defined.

End RunModelProperties.

Section ControlStepProperties.

Import Heuristics.

Lemma control_step_stops (rule_dictionary : rule_dict)
    (nodes_model : nodes) (before after : list string) (pump : string)
    (e : exn) :
  forall links_model mid : links,
    control_step rule_dictionary nodes_model before links_model = inl mid ->
    control_pump rule_dictionary nodes_model pump mid = Raise e ->
    control_step rule_dictionary nodes_model (before ++ pump :: after)
                 links_model
      = inr (not_specified pump).
Proof.
  induction before as [|q before IH]; intros links_model mid Hbefore Hpump.
  - simpl in Hbefore. injection Hbefore as ->. simpl. rewrite Hpump.
    reflexivity.
  - simpl in *.
    destruct (control_pump rule_dictionary nodes_model q links_model)
      as [l|e']; [|discriminate].
    apply (IH l mid Hbefore Hpump).
Qed.

(** X11.  A pump that does have rules is reported as 'Not Specified in
    Rules' when one of its rules, a 'higher' or 'lower' rule reached
    without an exception, names in its first field something that is not
    a node of the model: the control step ends with the same object as
    for a pump without an entry. *)
Theorem unknown_node_reported_as_missing_pump
    (rule_dictionary : rule_dict) (nodes_model : nodes)
    (before after : list string) (pump : string)
    (pre post : list rule) (r : rule) (links_model mid mid' : links) :
  control_step rule_dictionary nodes_model before links_model = inl mid ->
  dict_get rule_dictionary pump = Ok (pre ++ r :: post) ->
  apply_rules nodes_model pump pre mid = Ok mid' ->
  direction_of r <> None ->
  (forall n, nth_error r 0 = Some (PStr n) -> nodes_model n = None) ->
  control_step rule_dictionary nodes_model (before ++ pump :: after)
               links_model
    = inr (not_specified pump).
Proof.
  intros Hbefore Hd Hpre Hdir Hnode.
  assert (Hr : apply_rule nodes_model pump mid' r = Raise EngineError).
  { unfold apply_rule. rewrite !py_index_0.
    assert (Hid :
              forall id, nth_error r 0 = Some id ->
                         node_depth nodes_model id = Raise EngineError).
    { intros [n|q] Hid; simpl; [|reflexivity].
      rewrite (Hnode n Hid). reflexivity. }
    destruct r as [|id r'].
    - exfalso. apply Hdir. reflexivity.
    - simpl nth_error. simpl of_option. cbv beta iota.
      rewrite (Hid id eq_refl).
      unfold direction_of in Hdir.
      destruct (str_in "higher" (lowered_strings (id :: r')));
        [reflexivity|].
      destruct (str_in "lower" (lowered_strings (id :: r')));
        [reflexivity|].
      exfalso. apply Hdir. reflexivity. }
  apply (control_step_stops rule_dictionary nodes_model before after pump
           EngineError links_model mid Hbefore).
  unfold control_pump. rewrite Hd, apply_rules_app, Hpre. simpl.
  rewrite Hr. reflexivity.
Qed.

Lemma unknown_node_reported_as_missing_pump_witness :
  control_step
    [("p1"%string,
      [ [PStr "n1"; PNum (2 # 10); PNum 1; PStr "higher"];
        [PStr "N1"; PNum (2 # 10); PNum 0; PStr "lower"] ])]
    (table_depth [("n1"%string, 1 # 2)])
    ([] ++ "p1"%string :: []) (fun _ => 0)
  = inr (not_specified "p1").
Proof.
  apply (unknown_node_reported_as_missing_pump
           [("p1"%string,
             [ [PStr "n1"; PNum (2 # 10); PNum 1; PStr "higher"];
               [PStr "N1"; PNum (2 # 10); PNum 0; PStr "lower"] ])]
           (table_depth [("n1"%string, 1 # 2)])
           [] [] "p1"
           [ [PStr "n1"; PNum (2 # 10); PNum 1; PStr "higher"] ] []
           [PStr "N1"; PNum (2 # 10); PNum 0; PStr "lower"]
           (fun _ => 0) (fun _ => 0)
           (set_target_setting (fun _ => 0) "p1" 1)).
  - reflexivity.
  - reflexivity.
  - reflexivity.
  - discriminate.
  - intros n Hn. injection Hn as <-. reflexivity.
Defined.

(** X12.  The order in which the engine enumerates the pumps does not
    matter: when a control step over a list of distinct pumps runs to its
    end, the step over any rearrangement of the list runs to its end too
    and leaves every setting at the same value. *)
Theorem control_step_independent_of_pump_order
    (rule_dictionary : rule_dict) (nodes_model : nodes)
    (list_of_pumps rearranged : list string) (links_model links1 : links) :
  NoDup list_of_pumps ->
  Permutation list_of_pumps rearranged ->
  control_step rule_dictionary nodes_model list_of_pumps links_model
    = inl links1 ->
  exists links2,
    control_step rule_dictionary nodes_model rearranged links_model
      = inl links2 /\
    forall p, links2 p = links1 p.
Proof.
  intros Hnd Hperm H1.
  assert (Hnd' : NoDup rearranged)
    by (apply (Permutation_NoDup Hperm Hnd)).
  destruct (control_step_completes nodes_model rule_dictionary rearranged
              links_model) as [links2 H2].
  { intros p Hin.
    apply (Permutation_in _ (Permutation_sym Hperm)) in Hin.
    destruct (control_step_each nodes_model rule_dictionary list_of_pumps
                Hnd _ _ H1 p Hin) as (lp & Hlp & _).
    exists lp. exact Hlp. }
  exists links2. split; [exact H2|].
  intro p. destruct (in_dec string_dec p list_of_pumps) as [Hin | Hout].
  - destruct (control_step_each nodes_model rule_dictionary list_of_pumps
                Hnd _ _ H1 p Hin) as (lp & Hlp & Hv1).
    destruct (control_step_each nodes_model rule_dictionary rearranged
                Hnd' _ _ H2 p (Permutation_in _ Hperm Hin))
      as (lp' & Hlp' & Hv2).
    rewrite Hv1, Hv2. congruence.
  - rewrite (control_step_not_listed rule_dictionary nodes_model p
               list_of_pumps Hout _ _ H1).
    apply (control_step_not_listed rule_dictionary nodes_model p rearranged).
    + intro Hin. apply Hout.
      apply (Permutation_in _ (Permutation_sym Hperm) Hin).
    + exact H2.
Qed.

Lemma control_step_independent_of_pump_order_witness :
  exists links2,
    control_step example_rules
                 (table_depth [("j_10"%string, 1 # 2); ("j_2"%string, 2)])
                 ["p_2_1"; "p10_1"]%string (fun _ => 0)
      = inl links2 /\
    forall p,
      links2 p =
      set_target_setting
        (set_target_setting (set_target_setting (fun _ => 0) "p10_1" 1)
                            "p_2_1" 1)
        "p_2_1" (5 # 10) p.
Proof.
  apply (control_step_independent_of_pump_order
           example_rules
           (table_depth [("j_10"%string, 1 # 2); ("j_2"%string, 2)])
           ["p10_1"; "p_2_1"]%string ["p_2_1"; "p10_1"]%string
           (fun _ => 0)).
  - repeat constructor; simpl; intuition discriminate.
  - apply perm_swap.
  - reflexivity.
Defined.

(** X13.  The usual pair of rules on one node, switch to [v_on] above
    [hi] and to [v_off] at or below [lo] with [lo <= hi], gives a
    hysteresis band: above [hi] the setting becomes [v_on], at or below
    [lo] it becomes [v_off], in between every setting stays as it is;
    other pumps are never touched.  (The node must not be called
    'higher'.) *)
Theorem on_off_pair_is_a_hysteresis_band
    (nodes_model : nodes) (pump node : string)
    (lo hi v_on v_off d : Q) (links_model : links) :
  nodes_model node = Some d ->
  lower node <> "higher"%string ->
  lo <= hi ->
  exists links_model',
    apply_rules nodes_model pump
      [ [PStr node; PNum hi; PNum v_on; PStr "higher"];
        [PStr node; PNum lo; PNum v_off; PStr "lower"] ]
      links_model = Ok links_model' /\
    (hi < d -> links_model' pump = v_on) /\
    (d <= lo -> links_model' pump = v_off) /\
    (lo < d -> d <= hi -> links_model' = links_model) /\
    (forall p, p <> pump -> links_model' p = links_model p).
Proof.
  intros Hn Hname Hband.
  assert (Hh1 : str_in "higher"
                  (lowered_strings
                     [PStr node; PNum hi; PNum v_on; PStr "higher"]) = true).
  { cbn [lowered_strings str_in existsb]. apply orb_true_iff. right.
    reflexivity. }
  assert (Hh2 : str_in "higher"
                  (lowered_strings
                     [PStr node; PNum lo; PNum v_off; PStr "lower"]) = false).
  { cbn [lowered_strings str_in existsb]. apply orb_false_iff.
    split; [|reflexivity].
    apply String.eqb_neq. intro E. apply Hname. symmetry. exact E. }
  assert (Hl2 : str_in "lower"
                  (lowered_strings
                     [PStr node; PNum lo; PNum v_off; PStr "lower"]) = true).
  { cbn [lowered_strings str_in existsb]. apply orb_true_iff. right.
    reflexivity. }
  cbn [apply_rules]. unfold apply_rule.
  rewrite Hh1, Hh2, Hl2, !py_index_0, !py_index_1, !py_index_2.
  cbn [nth_error of_option node_depth depth_gt depth_le assign_target].
  rewrite Hn. cbn [of_option].
  destruct (Qgtb d hi) eqn:Egt; destruct (Qle_bool d lo) eqn:Ele;
    eexists; (split; [reflexivity|]).
  - apply Qltb_lt in Egt. apply Qle_bool_iff in Ele. exfalso. lra.
  - apply Qltb_lt in Egt.
    assert (Hnle : ~ d <= lo) by lra.
    repeat split.
    + intros _. unfold set_target_setting. rewrite String.eqb_refl.
      reflexivity.
    + intro H. contradiction.
    + intros _ H. exfalso. lra.
    + intros p Hp. unfold set_target_setting.
      apply String.eqb_neq in Hp. rewrite Hp. reflexivity.
  - apply Qltb_ge in Egt. apply Qle_bool_iff in Ele.
    repeat split.
    + intro H. exfalso. lra.
    + intros _. unfold set_target_setting. rewrite String.eqb_refl.
      reflexivity.
    + intros H _. exfalso. lra.
    + intros p Hp. unfold set_target_setting.
      apply String.eqb_neq in Hp. rewrite Hp. reflexivity.
  - apply Qltb_ge in Egt.
    assert (Hnle : ~ d <= lo).
    { intro H. apply Qle_bool_iff in H. congruence. }
    repeat split.
    + intro H. exfalso. lra.
    + intro H. contradiction.
Qed.

Lemma on_off_pair_is_a_hysteresis_band_witness :
  exists links_model',
    apply_rules (table_depth [("j_10"%string, 25 # 100)]) "p10_1"
      [ [PStr "j_10"; PNum (3 # 10); PNum 1; PStr "higher"];
        [PStr "j_10"; PNum (2 # 10); PNum 0; PStr "lower"] ]
      (fun _ => 1 # 2) = Ok links_model' /\
    (3 # 10 < 25 # 100 -> links_model' "p10_1"%string = 1) /\
    (25 # 100 <= 2 # 10 -> links_model' "p10_1"%string = 0) /\
    (2 # 10 < 25 # 100 -> 25 # 100 <= 3 # 10 ->
     links_model' = (fun _ => 1 # 2)) /\
    (forall p, p <> "p10_1"%string -> links_model' p = 1 # 2).
Proof.
  apply (on_off_pair_is_a_hysteresis_band
           (table_depth [("j_10"%string, 25 # 100)]) "p10_1" "j_10"
           (2 # 10) (3 # 10) 1 0 (25 # 100) (fun _ => 1 # 2)).
  - reflexivity.
  - vm_compute. discriminate.
  - discriminate.
Defined.

End ControlStepProperties.

(** ** The object of [HeuristicRTC]: a run followed by [interpret_results] *)
Section ObjectMore.

Import Heuristics HeuristicRTCObject.

Variable W : Type.
Variable advance : links -> W -> W.
Variable depth : W -> nodes.
Variable total_inflow : W -> string -> Q.
Variable current_time : W -> Z.

Variable rule_dictionary : rule_dict.
Variables pumps outfalls : list string.

Lemma recording_agrees (n_steps : nat) :
  forall (w : W) (links_model : links)
         (results : list (list Q)) (stamps : list Z),
    sim_loop W advance depth total_inflow current_time rule_dictionary
             pumps outfalls n_steps w links_model results stamps =
    match sim_loop_recording W advance depth total_inflow current_time
                             rule_dictionary pumps outfalls n_steps w
                             links_model results stamps with
    | (results', stamps', None) => inl (results', stamps')
    | (_, _, Some e) => inr e
    end.
Proof.
  induction n_steps as [|n IH]; intros w links_model results stamps; simpl.
  - reflexivity.
  - destruct (control_step rule_dictionary (depth (advance links_model w))
                           pumps links_model) as [l'|e].
    + apply IH.
    + reflexivity.
Qed.

(** The object keeps, of a run that ends early, the values of the steps
    completed before. *)
Lemma recording_shape (n_steps : nat) :
  forall (m : nat) (w : W) (links_model : links)
         (results results' : list (list Q)) (stamps stamps' : list Z)
         (e : exn),
    List.length stamps = m ->
    Forall (fun s => List.length s = m) results ->
    sim_loop_recording W advance depth total_inflow current_time
                       rule_dictionary pumps outfalls n_steps w
                       links_model results stamps
      = (results', stamps', Some e) ->
    (m <= List.length stamps' < m + n_steps)%nat /\
    Forall (fun s => List.length s = List.length stamps') results'.
Proof.
  induction n_steps as [|n IH];
    intros m w links_model results results' stamps stamps' e Hst Hall H;
    simpl in H.
  - discriminate.
  - destruct (control_step rule_dictionary (depth (advance links_model w))
                           pumps links_model) as [l'|e'].
    + apply (IH (S m)) in H.
      * destruct H as [Hlen Hres]. split; [lia | exact Hres].
      * rewrite length_app, Hst. simpl. lia.
      * apply Forall_forall. intros s Hs.
        apply in_map_iff in Hs. destruct Hs as ([s0 o] & <- & Hin).
        apply in_combine_l in Hin. rewrite Forall_forall in Hall.
        simpl. rewrite length_app, (Hall s0 Hin). simpl. lia.
    + injection H as <- <- _. split; [lia|].
      rewrite Hst. exact Hall.
Qed.

End ObjectMore.

Section ObjectProperties.

Import Heuristics HeuristicRTCObject.

Lemma combine_projections {A B : Type} (xs : list A) :
  forall ys : list B,
    List.length xs = List.length ys ->
    map fst (combine xs ys) = xs /\ map snd (combine xs ys) = ys.
Proof.
  induction xs as [|x xs IH]; intros [|y ys] Hl;
    simpl in *; try discriminate; [split; reflexivity|].
  destruct (IH ys) as [H1 H2]; [lia|]. rewrite H1, H2. split; reflexivity.
Qed.

(** X14.  The method with its effect on the object returns what
    [run_model] returns; after a run that returned a table,
    [interpret_results] raises nothing and gives one total per outfall,
    under the outfall's name and in the engine's order: the sum of the
    values recorded for that outfall. *)
Theorem totals_after_completed_run
    (W : Type) (advance : links -> W -> W) (depth : W -> nodes)
    (total_inflow : W -> string -> Q) (current_time : W -> Z)
    (self self' : HeuristicRTC) (rule_dictionary : rule_dict)
    (pumps outfalls : list string)
    (n_steps : nat) (w0 : W) (links0 : links) (df : DataFrame) :
  run_model_on W advance depth total_inflow current_time self
               rule_dictionary pumps outfalls n_steps w0 links0
    = (self', Ok (Frame df)) ->
  run_model W advance depth total_inflow current_time rule_dictionary
            pumps outfalls n_steps w0 links0 = Ok (Frame df) /\
  exists totals,
    interpret_results self' = Ok totals /\
    map fst totals = outfalls /\
    map snd totals = map (fun s => fold_left Qplus s 0) (series df).
Proof.
  unfold run_model_on, run_model. intro H.
  destruct (py_index (map snd rule_dictionary) 0); [|discriminate].
  pose proof (recording_agrees W advance depth total_inflow current_time
                rule_dictionary pumps outfalls n_steps w0 links0
                (map (fun _ => []) outfalls) []) as Hagree.
  destruct (sim_loop_recording W advance depth total_inflow current_time
              rule_dictionary pumps outfalls n_steps w0 links0
              (map (fun _ => []) outfalls) [])
    as [[results stamps] [e|]]; [discriminate|].
  injection H as <- <-. rewrite Hagree.
  split; [reflexivity|].
  destruct (sim_loop_shape W advance depth total_inflow current_time
              rule_dictionary pumps outfalls n_steps
              0 w0 links0 (map (fun _ => []) outfalls) results [] stamps
              (length_map _ _)) as (Hlen & _ & _).
  - apply Forall_forall. intros s Hs. apply in_map_iff in Hs.
    destruct Hs as (o & <- & _). reflexivity.
  - exact Hagree.
  - unfold interpret_results. simpl. eexists. split; [reflexivity|].
    apply combine_projections. rewrite length_map. symmetry. exact Hlen.
Qed.

Lemma totals_after_completed_run_witness :
  exists totals,
    interpret_results
      (fst (run_model_on nat (fun _ w => S w)
              (fun _ => table_depth [("j_10"%string, 1 # 2);
                                     ("j_2"%string, 2)])
              (fun w _ => inject_Z (Z.of_nat w)) (fun w => Z.of_nat w)
              {| model_path := "model.inp"%string;
                 list_of_pumps := None; list_of_outfalls := None;
                 outfall_results := None; times := None;
                 outfall_output := None |}
              example_rules ["p10_1"; "p_2_1"]%string
              ["out1"; "out2"]%string 3 0%nat (fun _ => 0)))
      = Ok totals /\
    map fst totals = ["out1"; "out2"]%string /\
    map snd totals =
      map (fun s => fold_left Qplus s 0) [[1; 2; 3]; [1; 2; 3]].
Proof.
  refine (proj2 (totals_after_completed_run
                   nat (fun _ w => S w)
                   (fun _ => table_depth [("j_10"%string, 1 # 2);
                                          ("j_2"%string, 2)])
                   (fun w _ => inject_Z (Z.of_nat w)) (fun w => Z.of_nat w)
                   {| model_path := "model.inp"%string;
                      list_of_pumps := None; list_of_outfalls := None;
                      outfall_results := None; times := None;
                      outfall_output := None |}
                   _
                   example_rules ["p10_1"; "p_2_1"]%string
                   ["out1"; "out2"]%string 3 0%nat (fun _ => 0)
                   {| columns := ["out1"; "out2"]%string;
                      series := [[1; 2; 3]; [1; 2; 3]] |} _)).
  reflexivity.
Defined.

(** X15.  A run that ends on the exception object leaves
    [outfall_output] as it was: [interpret_results] then answers as it
    did before the run (AttributeError on a fresh object, the totals of
    the earlier run otherwise), while [outfall_results] and [times] hold
    the values of the new run's steps completed before the one that
    failed, fewer than the simulated period has. *)
Theorem failed_run_keeps_stale_output
    (W : Type) (advance : links -> W -> W) (depth : W -> nodes)
    (total_inflow : W -> string -> Q) (current_time : W -> Z)
    (self self' : HeuristicRTC) (rule_dictionary : rule_dict)
    (pumps outfalls : list string)
    (n_steps : nat) (w0 : W) (links0 : links) (e : exn) :
  run_model_on W advance depth total_inflow current_time self
               rule_dictionary pumps outfalls n_steps w0 links0
    = (self', Ok (ExceptionObject e)) ->
  outfall_output self' = outfall_output self /\
  interpret_results self' = interpret_results self /\
  (outfall_output self = None -> raises (interpret_results self')) /\
  exists results stamps,
    outfall_results self' = Some results /\
    times self' = Some stamps /\
    (List.length stamps < n_steps)%nat /\
    Forall (fun s => List.length s = List.length stamps) results.
Proof.
  unfold run_model_on. intro H.
  destruct (py_index (map snd rule_dictionary) 0); [|discriminate].
  destruct (sim_loop_recording W advance depth total_inflow current_time
              rule_dictionary pumps outfalls n_steps w0 links0
              (map (fun _ => []) outfalls) [])
    as [[results stamps] [e'|]] eqn:E; [|discriminate].
  injection H as <- _. simpl.
  split; [reflexivity|]. split; [reflexivity|]. split.
  - intro Hnone. unfold interpret_results. simpl. rewrite Hnone.
    eexists. reflexivity.
  - exists results, stamps. split; [reflexivity|]. split; [reflexivity|].
    destruct (recording_shape W advance depth total_inflow current_time
                rule_dictionary pumps outfalls n_steps 0 w0 links0
                (map (fun _ => []) outfalls) results [] stamps e'
                eq_refl) as [Hlen Hres].
    + apply Forall_forall. intros s Hs. apply in_map_iff in Hs.
      destruct Hs as (o & <- & _). reflexivity.
    + exact E.
    + split; [lia | exact Hres].
Qed.

Lemma failed_run_keeps_stale_output_witness :
  let fresh :=
    {| model_path := "model.inp"%string;
       list_of_pumps := None; list_of_outfalls := None;
       outfall_results := None; times := None;
       outfall_output := None |} in
  let after :=
    fst (run_model_on nat (fun _ w => S w)
           (fun _ => table_depth [("j_10"%string, 1 # 2); ("j_2"%string, 2)])
           (fun _ _ => 7) (fun w => Z.of_nat w)
           fresh example_rules ["p10_1"; "p_2_1"; "p3"]%string
           ["out1"]%string 3 0%nat (fun _ => 0)) in
  outfall_output after = None /\
  interpret_results after = interpret_results fresh /\
  (outfall_output fresh = None -> raises (interpret_results after)) /\
  exists results stamps,
    outfall_results after = Some results /\
    times after = Some stamps /\
    (List.length stamps < 3)%nat /\
    Forall (fun s => List.length s = List.length stamps) results.
Proof.
  intros fresh after.
  refine (failed_run_keeps_stale_output
            nat (fun _ w => S w)
            (fun _ => table_depth [("j_10"%string, 1 # 2); ("j_2"%string, 2)])
            (fun _ _ => 7) (fun w => Z.of_nat w)
            fresh after example_rules ["p10_1"; "p_2_1"; "p3"]%string
            ["out1"]%string 3 0%nat (fun _ => 0) (not_specified "p3") _).
  reflexivity.
Defined.

End ObjectProperties.

(** ** [__init__]: the file that is chosen *)
Section ModelPathProperties.

Import ModelPath.

Lemma filter_singleton {A : Type} (p : A -> bool) (l : list A) (x : A) :
  filter p l = [x] ->
  In x l /\ p x = true /\ (forall y, In y l -> p y = true -> y = x).
Proof.
  intro H.
  assert (Hx : In x (filter p l)) by (rewrite H; left; reflexivity).
  apply filter_In in Hx. destruct Hx as [Hin Hp].
  split; [exact Hin|]. split; [exact Hp|].
  intros y Hy Hpy.
  assert (Hy' : In y (filter p l)) by (apply filter_In; split; assumption).
  rewrite H in Hy'. destruct Hy' as [E | []]. symmetry. exact E.
Qed.

(** X16.  When the constructor sets [model_path]: with a [model_name] it
    is that name, behind the directory and a backslash if a directory is
    given, and it is a file; without one it is the only entry of the
    listed directory whose name contains '.inp' (no directory given) or
    'inp' (directory given), and whether that entry is a file is not
    looked at. *)
Theorem constructor_chooses_the_only_candidate
    (listdir : option string -> option (list string))
    (isfile : string -> bool) (getcwd : string)
    (model_directory model_name : option string) (path : string) :
  init listdir isfile getcwd model_directory model_name = Initialised path ->
  match model_name, model_directory with
  | Some name, None => path = name /\ isfile path = true
  | Some name, Some d =>
      path = (d ++ backslash ++ name)%string /\ isfile path = true
  | None, None =>
      exists entries,
        listdir None = Some entries /\ In path entries /\
        contains ".inp" path = true /\
        (forall x, In x entries -> contains ".inp" x = true -> x = path)
  | None, Some d =>
      exists entries mn0,
        listdir (Some d) = Some entries /\
        path = (d ++ backslash ++ mn0)%string /\ In mn0 entries /\
        contains "inp" mn0 = true /\
        (forall x, In x entries -> contains "inp" x = true -> x = mn0)
  end.
Proof.
  unfold init. intro H.
  destruct model_name as [name|]; destruct model_directory as [d|].
  - destruct (isfile (d ++ backslash ++ name)%string) eqn:E; [|discriminate].
    injection H as <-. split; [reflexivity | exact E].
  - destruct (isfile name) eqn:E; [|discriminate].
    injection H as <-. split; [reflexivity | exact E].
  - destruct (listdir (Some d)) as [entries|]; [|discriminate].
    destruct (filter (contains "inp") entries) as [|mn0 [|? ?]] eqn:Ef;
      try discriminate.
    injection H as <-.
    destruct (filter_singleton _ _ _ Ef) as (Hin & Hp & Huniq).
    exists entries, mn0. repeat split; assumption.
  - destruct (listdir None) as [entries|]; [|discriminate].
    destruct (filter (contains ".inp") entries) as [|mn0 [|? ?]] eqn:Ef;
      try discriminate.
    injection H as <-.
    destruct (filter_singleton _ _ _ Ef) as (Hin & Hp & Huniq).
    exists entries. repeat split; assumption.
Qed.

Lemma constructor_chooses_the_only_candidate_witness :
  exists entries mn0,
    Some ["notes.txt"; "Dean_Town.inp"; "Dean_Town.rpt"]%string
      = Some entries /\
    ("C:\models" ++ backslash ++ "Dean_Town.inp")%string
      = ("C:\models" ++ backslash ++ mn0)%string /\
    In mn0 entries /\
    contains "inp" mn0 = true /\
    (forall x, In x entries -> contains "inp" x = true -> x = mn0).
Proof.
  apply (constructor_chooses_the_only_candidate
           (fun _ => Some ["notes.txt"; "Dean_Town.inp";
                           "Dean_Town.rpt"]%string)
           (fun _ => false) "C:\work"
           (Some "C:\models"%string) None
           ("C:\models" ++ backslash ++ "Dean_Town.inp")%string).
  reflexivity.
Defined.

End ModelPathProperties.

(** ** Tokens and parts of a line *)
Section Tokens.

Local Open Scope string_scope.

Lemma append_assoc_string (a b c : string) : (a ++ b) ++ c = a ++ (b ++ c).
Proof.
  induction a as [|x a IH]; simpl; [reflexivity | rewrite IH; reflexivity].
Qed.

Lemma append_empty_r (a : string) : a ++ "" = a.
Proof.
  induction a as [|x a IH]; simpl; [reflexivity | rewrite IH; reflexivity].
Qed.

Lemma prefix_append (sub rest : string) : prefix sub (sub ++ rest) = true.
Proof.
  induction sub as [|x sub IH]; simpl.
  - destruct rest; reflexivity.
  - destruct (ascii_dec x x) as [_ | Hne]; [exact IH | contradiction].
Qed.

Lemma contains_prefix (sub s : string) :
  prefix sub s = true -> contains sub s = true.
Proof.
  intro H. destruct s; cbn [contains]; rewrite H; reflexivity.
Qed.

(** A part of a line occurs in the line. *)
Lemma contains_middle (before sub rest : string) :
  contains sub (before ++ sub ++ rest) = true.
Proof.
  induction before as [|x before IH].
  - cbn [append]. apply contains_prefix. apply prefix_append.
  - cbn [append contains]. rewrite IH. apply orb_true_r.
Qed.

Lemma split_from_nonempty (s : string) :
  forall cur, cur <> "" -> split_from cur s <> [].
Proof.
  induction s as [|c s IH]; intros cur Hcur; simpl.
  - destruct cur; [contradiction | discriminate].
  - destruct (is_space c).
    + destruct cur; [contradiction | discriminate].
    + apply IH. destruct cur; discriminate.
Qed.

(** The first token is a part of the line: blanks, then the token less
    what was already read, then the rest. *)
Lemma split_from_first (s : string) :
  forall cur tok rest,
    split_from cur s = tok :: rest ->
    exists blanks a b,
      s = blanks ++ a ++ b /\ tok = cur ++ a /\ (cur <> "" -> blanks = "").
Proof.
  induction s as [|c s IH]; intros cur tok rest H; simpl in H.
  - destruct cur as [|x cur]; [discriminate|].
    injection H as <- _. exists "", "", "".
    split; [reflexivity|]. split; [|reflexivity].
    symmetry. apply append_empty_r.
  - destruct (is_space c).
    + destruct cur as [|x cur].
      * destruct (IH "" tok rest H) as (blanks & a & b & Hs & Htok & _).
        exists (String c blanks), a, b. simpl. rewrite <- Hs.
        split; [reflexivity|]. split; [exact Htok|]. intro E. contradiction.
      * injection H as <- _. exists "", "", (String c s).
        split; [reflexivity|]. split; [|reflexivity].
        symmetry. apply append_empty_r.
    + destruct (IH (cur ++ String c "") tok rest H)
        as (blanks & a & b & Hs & Htok & Hblank).
      assert (Hb : blanks = "") by (apply Hblank; destruct cur; discriminate).
      subst blanks. simpl in Hs.
      exists "", (String c a), b. simpl. rewrite Hs.
      split; [reflexivity|]. split; [|auto].
      rewrite Htok, append_assoc_string. reflexivity.
Qed.

Lemma first_token_occurs (line tok : string) (rest : list string) :
  split line = tok :: rest -> contains tok line = true.
Proof.
  unfold split. intro H.
  destruct (split_from_first line "" tok rest H)
    as (blanks & a & b & Hs & Htok & _).
  simpl in Htok. subst a. rewrite Hs. apply contains_middle.
Qed.

(** In a line without tokens nothing that has a token occurs. *)
Lemma blank_prefix (s : string) :
  split_from "" s = [] ->
  forall sub, prefix sub s = true -> split_from "" sub = [].
Proof.
  induction s as [|c s IH]; intros Hs sub Hp.
  - destruct sub; [reflexivity | discriminate].
  - destruct sub as [|x sub]; [reflexivity|].
    simpl in Hp. destruct (ascii_dec x c) as [-> | Hne]; [|discriminate].
    simpl in Hs |- *. destruct (is_space c).
    + apply (IH Hs sub Hp).
    + exfalso. apply (split_from_nonempty s (String c "")); [discriminate|].
      exact Hs.
Qed.

Lemma blank_contains (s : string) :
  split_from "" s = [] ->
  forall sub, contains sub s = true -> split_from "" sub = [].
Proof.
  induction s as [|c s IH]; intros Hs sub Hc; simpl in Hc.
  - rewrite orb_false_r in Hc. apply (blank_prefix "" Hs sub Hc).
  - apply orb_true_iff in Hc. destruct Hc as [Hp | Hc].
    + apply (blank_prefix (String c s) Hs sub Hp).
    + apply IH; [|exact Hc].
      simpl in Hs. destruct (is_space c); [exact Hs|].
      exfalso. apply (split_from_nonempty s (String c "")); [discriminate|].
      exact Hs.
Qed.

End Tokens.

Section CurveRows.

Import CentralBasinApproach.

Lemma first_token_is_filter
    (read_model : list string) (relevant_curve : string) :
  split relevant_curve = [relevant_curve] ->
  first_token_is relevant_curve
                 (filter (contains relevant_curve) read_model) =
  Ok (filter (fun line =>
                match split line with
                | tok :: _ => String.eqb tok relevant_curve
                | [] => false
                end)
             read_model).
Proof.
  intro Htok.
  induction read_model as [|line rm IH]; [reflexivity|].
  cbn [filter].
  destruct (contains relevant_curve line) eqn:Ec.
  - cbn [first_token_is]. rewrite py_index_0.
    destruct (split line) as [|tok rest] eqn:Es.
    + exfalso. unfold split in Es, Htok.
      rewrite (blank_contains line Es relevant_curve Ec) in Htok.
      discriminate.
    + cbn [nth_error of_option]. rewrite IH. reflexivity.
  - rewrite IH.
    destruct (split line) as [|tok rest] eqn:Es; [reflexivity|].
    destruct (String.eqb tok relevant_curve) eqn:Ee; [|reflexivity].
    apply String.eqb_eq in Ee. subst tok.
    rewrite (first_token_occurs line relevant_curve rest Es) in Ec.
    discriminate.
Qed.

(** X17.  For a curve name that is one token, the rows the method
    integrates over are exactly the lines of the file whose first token
    is the curve name, in file order: the two list comprehensions never
    raise, and lines that only mention the name further on (the storage
    line itself) are left out. *)
Theorem curve_rows_are_lines_led_by_curve_name
    (read_model : list string) (relevant_curve : string) :
  split relevant_curve = [relevant_curve] ->
  first_token_is relevant_curve
                 (filter (contains relevant_curve) read_model) =
  Ok (filter (fun line =>
                match split line with
                | tok :: _ => String.eqb tok relevant_curve
                | [] => false
                end)
             read_model).
Proof.
  apply first_token_is_filter.
Qed.

Lemma curve_rows_are_lines_led_by_curve_name_witness :
  first_token_is "curve1" (filter (contains "curve1") example_inp) =
  Ok (filter (fun line =>
                match split line with
                | tok :: _ => String.eqb tok "curve1"
                | [] => false
                end)
             example_inp).
Proof.
  apply (curve_rows_are_lines_led_by_curve_name example_inp "curve1").
  reflexivity.
Defined.

End CurveRows.

(** * The integrator over the machine's numbers *)

Lemma bounded_search (P : nat -> bool) (n : nat) :
  (exists j, (j < n)%nat /\ P j = false) \/
  (forall j, (j < n)%nat -> P j = true).
Proof.
  induction n as [|n IH].
  - right. intros j Hj. lia.
  - destruct IH as [(j & Hj & Hp) | Hall].
    + left. exists j. split; [lia | exact Hp].
    + destruct (P n) eqn:En.
      * right. intros j Hj.
        destruct (Nat.eq_dec j n) as [-> | Hne]; [exact En | apply Hall; lia].
      * left. exists n. split; [lia | exact En].
Qed.

Section AnyArithmetic.

Import CentralBasinApproach.

Variable num : Type.
Variables zero two : num.
Variables add sub mul div : num -> num -> num.
Variable ltb : num -> num -> bool.
Variable float : string -> option num.

Local Abbreviation integrate :=
  (FloatingPoint.integrate num two add sub mul div ltb float).
Local Abbreviation rows_read_as := (FloatingPoint.rows_read_as num float).
Local Abbreviation running := (FloatingPoint.running num two add sub mul div).
Local Abbreviation trapezoid :=
  (FloatingPoint.trapezoid num two add sub mul div).

Lemma loop_stops (rows : list string) (threshold sp volume : num) :
  ltb sp threshold = false ->
  integrate rows threshold sp volume = Ok volume.
Proof.
  intro H. destruct rows; simpl; rewrite H; reflexivity.
Qed.

Lemma loop_advances (row0 row1 : string) (rows : list string)
    (p0 p1 : num * num) (threshold sp volume : num) :
  FloatingPoint.row_depth num float row0 = Ok (fst p0) ->
  FloatingPoint.row_area num float row0 = Ok (snd p0) ->
  FloatingPoint.row_depth num float row1 = Ok (fst p1) ->
  FloatingPoint.row_area num float row1 = Ok (snd p1) ->
  ltb sp threshold = true ->
  integrate (row0 :: row1 :: rows) threshold sp volume =
  integrate (row1 :: rows) threshold
            (add sp (sub (fst p1) (fst p0)))
            (add volume (trapezoid p0 p1)).
Proof.
  intros Hd0 Ha0 Hd1 Ha1 H.
  cbn [FloatingPoint.integrate]. rewrite H, Ha0, Ha1, Hd1, Hd0. reflexivity.
Qed.

Lemma running_step (p0 p1 : num * num) (rest : list (num * num))
    (n : nat) (sp volume : num) :
  running (p0 :: p1 :: rest) (S n) sp volume =
  running (p1 :: rest) n (add sp (sub (fst p1) (fst p0)))
          (add volume (trapezoid p0 p1)).
Proof. reflexivity. Qed.

(** The loop follows the running values: it returns at the first
    interval after which the running depth is no longer below the
    threshold, with the volume accumulated up to and including that
    interval. *)
Lemma loop_follows_running (k : nat) :
  forall (rows : list string) (curve : list (num * num))
         (threshold sp volume : num),
    rows_read_as rows curve ->
    (S k < List.length curve)%nat ->
    (forall j, (j <= k)%nat ->
               ltb (fst (running curve j sp volume)) threshold = true) ->
    ltb (fst (running curve (S k) sp volume)) threshold = false ->
    integrate rows threshold sp volume =
      Ok (snd (running curve (S k) sp volume)).
Proof.
  induction k as [|k IH];
    intros rows curve threshold sp volume Hrows Hlen Hbelow Hreach.
  - destruct Hrows as [|row0 p0 rows1 curve1 [Hd0 Ha0] Hrows];
      [simpl in Hlen; lia|].
    destruct Hrows as [|row1 p1 rows2 curve2 [Hd1 Ha1] Hrows];
      [simpl in Hlen; lia|].
    rewrite (loop_advances row0 row1 rows2 p0 p1 threshold sp volume
               Hd0 Ha0 Hd1 Ha1 (Hbelow 0%nat (Nat.le_refl 0))).
    rewrite running_step in Hreach |- *.
    apply loop_stops. exact Hreach.
  - destruct Hrows as [|row0 p0 rows1 curve1 [Hd0 Ha0] Hrows];
      [simpl in Hlen; lia|].
    destruct Hrows as [|row1 p1 rows2 curve2 [Hd1 Ha1] Hrows];
      [simpl in Hlen; lia|].
    rewrite (loop_advances row0 row1 rows2 p0 p1 threshold sp volume
               Hd0 Ha0 Hd1 Ha1 (Hbelow 0%nat (Nat.le_0_l _))).
    rewrite running_step in Hreach |- *.
    apply (IH (row1 :: rows2) (p1 :: curve2)).
    + constructor; [split; assumption | exact Hrows].
    + simpl in *. lia.
    + intros j Hj. rewrite <- running_step. apply Hbelow. lia.
    + exact Hreach.
Qed.

(** The last interval enters the running volume in full. *)
Lemma running_last (k : nat) :
  forall (curve : list (num * num)) (d : num * num) (sp volume : num),
    (S k < List.length curve)%nat ->
    snd (running curve (S k) sp volume) =
    add (snd (running curve k sp volume))
        (trapezoid (nth k curve d) (nth (S k) curve d)).
Proof.
  induction k as [|k IH]; intros curve d sp volume Hlen.
  - destruct curve as [|p0 [|p1 rest]]; simpl in Hlen; try lia.
    reflexivity.
  - destruct curve as [|p0 [|p1 rest]]; simpl in Hlen; try lia.
    rewrite !running_step. rewrite (IH (p1 :: rest) d) by (simpl; lia).
    reflexivity.
Qed.

(** Running depths all below the threshold: the loop runs off the end
    of the rows. *)
Lemma loop_runs_off (rows : list string) (curve : list (num * num)) :
  rows_read_as rows curve ->
  forall threshold sp volume,
    ltb sp threshold = true ->
    (forall j, (j < List.length curve)%nat ->
               ltb (fst (running curve j sp volume)) threshold = true) ->
    integrate rows threshold sp volume = Raise IndexError.
Proof.
  induction 1 as [|row0 p0 rows curve [Hd0 Ha0] Hrows IH];
    intros threshold sp volume Hsp Hbelow.
  - simpl. rewrite Hsp. reflexivity.
  - destruct Hrows as [|row1 p1 rows curve [Hd1 Ha1] Hrows].
    + simpl. rewrite Hsp, Ha0. reflexivity.
    + rewrite (loop_advances row0 row1 rows p0 p1 threshold sp volume
                 Hd0 Ha0 Hd1 Ha1 Hsp).
      apply IH.
      * specialize (Hbelow 1%nat ltac:(simpl; lia)).
        rewrite running_step in Hbelow. exact Hbelow.
      * intros j Hj. rewrite <- running_step. apply Hbelow. simpl in *. lia.
Qed.

(** Some running depth not below the threshold: the loop returns. *)
Lemma loop_returns (j : nat) :
  forall (rows : list string) (curve : list (num * num))
         (threshold sp volume : num),
    rows_read_as rows curve ->
    (j < List.length curve)%nat ->
    ltb (fst (running curve j sp volume)) threshold = false ->
    exists v, integrate rows threshold sp volume = Ok v.
Proof.
  induction j as [|j IH];
    intros rows curve threshold sp volume Hrows Hlen Hreach.
  - exists volume. apply loop_stops.
    destruct curve as [|p0 [|p1 rest]]; exact Hreach.
  - destruct (ltb sp threshold) eqn:Hsp.
    2:{ exists volume. apply loop_stops. exact Hsp. }
    destruct Hrows as [|row0 p0 rows1 curve1 [Hd0 Ha0] Hrows];
      [simpl in Hlen; lia|].
    destruct Hrows as [|row1 p1 rows2 curve2 [Hd1 Ha1] Hrows];
      [simpl in Hlen; lia|].
    rewrite (loop_advances row0 row1 rows2 p0 p1 threshold sp volume
               Hd0 Ha0 Hd1 Ha1 Hsp).
    rewrite running_step in Hreach.
    apply (IH (row1 :: rows2) (p1 :: curve2)).
    + constructor; [split; assumption | exact Hrows].
    + simpl in *. lia.
    + exact Hreach.
Qed.

End AnyArithmetic.

(** The embedding with exact arithmetic is the loop at the rationals. *)
Lemma integrate_exact_instance (float : string -> option Q)
    (rows : list string) :
  forall threshold sp volume : Q,
    CentralBasinApproach.integrate float rows threshold sp volume =
    FloatingPoint.integrate Q 2 Qplus Qminus Qmult Qdiv Qltb float
                            rows threshold sp volume.
Proof.
  induction rows as [|row0 rows IH]; intros threshold sp volume.
  - reflexivity.
  - cbn [CentralBasinApproach.integrate FloatingPoint.integrate].
    destruct (Qltb sp threshold); [|reflexivity].
    change (FloatingPoint.row_area Q float) with
      (CentralBasinApproach.row_area float).
    change (FloatingPoint.row_depth Q float) with
      (CentralBasinApproach.row_depth float).
    destruct (CentralBasinApproach.row_area float row0); [|reflexivity].
    destruct rows as [|row1 rows]; [reflexivity|].
    destruct (CentralBasinApproach.row_area float row1); [|reflexivity].
    destruct (CentralBasinApproach.row_depth float row1); [|reflexivity].
    destruct (CentralBasinApproach.row_depth float row0); [|reflexivity].
    apply IH.
Qed.

(** * The integrator in binary64 *)

(** Two identities of binary64 addition and subtraction, from the
    specification of the primitive operations. *)
Lemma Prim2SF_one_to_one (x y : PrimFloat.float) :
  Prim2SF x = Prim2SF y -> x = y.
Proof.
  intro H. rewrite <- (SF2Prim_Prim2SF x), <- (SF2Prim_Prim2SF y), H.
  reflexivity.
Qed.

Lemma sub_zero_unchanged (x : PrimFloat.float) : (x - 0 = x)%float.
Proof.
  apply Prim2SF_one_to_one. rewrite sub_spec.
  change (Prim2SF 0) with (S754_zero false).
  destruct (Prim2SF x) as [[|]|[|]| |[|] m e]; reflexivity.
Qed.

(** A number that is not below a positive threshold is not the negative
    zero, the one number that adding it to 0 changes. *)
Lemma zero_add_unchanged (x t : PrimFloat.float) :
  PrimFloat.ltb 0 t = true -> PrimFloat.ltb x t = false ->
  (0 + x = x)%float.
Proof.
  rewrite !ltb_spec. change (Prim2SF 0) with (S754_zero false).
  intros H0 Hx.
  apply Prim2SF_one_to_one. rewrite add_spec.
  change (Prim2SF 0) with (S754_zero false).
  destruct (Prim2SF x) as [[|]|[|]| |[|] m e]; try reflexivity.
  unfold SFltb in *. simpl in *.
  destruct (Prim2SF t) as [[|]|[|]| |[|] m' e']; simpl in *; congruence.
Qed.

Section Binary64.

Import CentralBasinApproach FloatingPoint.

Local Open Scope float_scope.

Variable float : string -> option PrimFloat.float.

Lemma loop_follows_running64 (rows : list string)
    (curve : list (PrimFloat.float * PrimFloat.float))
    (threshold : PrimFloat.float) (k : nat) :
  rows_read_as64 float rows curve ->
  (S k < List.length curve)%nat ->
  (forall j, (j <= k)%nat ->
             PrimFloat.ltb (running_depth64 curve j) threshold = true) ->
  PrimFloat.ltb (running_depth64 curve (S k)) threshold = false ->
  integrate64 float rows threshold 0 0 = Ok (running_volume64 curve (S k)).
Proof.
  intros Hrows Hlen Hbelow Hreach.
  exact (loop_follows_running PrimFloat.float 2 PrimFloat.add PrimFloat.sub
           PrimFloat.mul PrimFloat.div PrimFloat.ltb float k rows curve
           threshold 0 0 Hrows Hlen Hbelow Hreach).
Qed.

Lemma running_last64 (curve : list (PrimFloat.float * PrimFloat.float))
    (k : nat) (d : PrimFloat.float * PrimFloat.float) :
  (S k < List.length curve)%nat ->
  running_volume64 curve (S k) =
  running_volume64 curve k + trapezoid64 (nth k curve d) (nth (S k) curve d).
Proof.
  intro Hlen.
  exact (running_last PrimFloat.float 2 PrimFloat.add PrimFloat.sub
           PrimFloat.mul PrimFloat.div k curve d 0 0 Hlen).
Qed.

Lemma loop_stops64 (rows : list string) (threshold : PrimFloat.float) :
  PrimFloat.ltb 0 threshold = false ->
  integrate64 float rows threshold 0 0 = Ok 0.
Proof.
  intro H.
  exact (loop_stops PrimFloat.float 2 PrimFloat.add PrimFloat.sub
           PrimFloat.mul PrimFloat.div PrimFloat.ltb float rows
           threshold 0 0 H).
Qed.

Lemma loop_returns_or_runs_off64 (rows : list string)
    (curve : list (PrimFloat.float * PrimFloat.float))
    (threshold : PrimFloat.float) :
  rows_read_as64 float rows curve ->
  (PrimFloat.ltb 0 threshold = false \/
   (exists j, (j < List.length curve)%nat /\
              PrimFloat.ltb (running_depth64 curve j) threshold = false)) /\
  (exists v, integrate64 float rows threshold 0 0 = Ok v)
  \/
  PrimFloat.ltb 0 threshold = true /\
  (forall j, (j < List.length curve)%nat ->
             PrimFloat.ltb (running_depth64 curve j) threshold = true) /\
  integrate64 float rows threshold 0 0 = Raise IndexError.
Proof.
  intro Hrows.
  destruct (PrimFloat.ltb 0 threshold) eqn:H0.
  - destruct (bounded_search
                (fun j => PrimFloat.ltb (running_depth64 curve j) threshold)
                (List.length curve)) as [(j & Hj & Hreach) | Hall].
    + left. split.
      * right. exists j. split; assumption.
      * exact (loop_returns PrimFloat.float 2 PrimFloat.add PrimFloat.sub
                 PrimFloat.mul PrimFloat.div PrimFloat.ltb float j rows curve
                 threshold 0 0 Hrows Hj Hreach).
    + right. split; [reflexivity|]. split; [exact Hall|].
      exact (loop_runs_off PrimFloat.float 2 PrimFloat.add PrimFloat.sub
               PrimFloat.mul PrimFloat.div PrimFloat.ltb float rows curve
               Hrows threshold 0 0 H0 Hall).
  - left. split; [left; reflexivity|].
    exists 0. apply loop_stops64. exact H0.
Qed.

End Binary64.

Section IntegratorClaims.

Import CentralBasinApproach FloatingPoint.

Local Open Scope float_scope.

(** C3, as the claim has it, fails in the arithmetic of the program.
    The curve has the constant area 100 and the strictly increasing
    depths 0, 0.3, 0.9 and 1.0; the threshold is the binary64 number
    next above 0.9, strictly inside the interval from 0.9 to 1.0.  The
    loop adds the differences 0.3 - 0 and 0.9 - 0.3 to [sp], and their
    rounded sum is that same number: [sp < stor[1]] is false after two
    intervals, the loop returns 90, and the interval that holds the
    threshold is not charged at all (with it the volume would be 100). *)
Lemma threshold_inside_interval_not_charged :
  rows_read_as64 decimal_binary64 rounding_rows rounding_curve /\
  map fst rounding_curve =
    [0; 0x1.3333333333333p-2; 0x1.ccccccccccccdp-1; 1] /\
  (PrimFloat.ltb 0 0x1.3333333333333p-2 = true /\
   PrimFloat.ltb 0x1.3333333333333p-2 0x1.ccccccccccccdp-1 = true /\
   PrimFloat.ltb 0x1.ccccccccccccdp-1 1 = true) /\
  (PrimFloat.ltb 0x1.ccccccccccccdp-1 rounding_threshold = true /\
   PrimFloat.ltb rounding_threshold 1 = true) /\
  running_depth64 rounding_curve 2 = rounding_threshold /\
  integrate64 decimal_binary64 rounding_rows rounding_threshold 0 0 = Ok 90 /\
  running_volume64 rounding_curve 2 = 90 /\
  running_volume64 rounding_curve 3 = 100.
Proof.
  split.
  { unfold rows_read_as64, FloatingPoint.rows_read_as, rounding_rows,
      rounding_curve.
    repeat (constructor; [split; reflexivity|]). constructor. }
  repeat split; reflexivity.
Qed.

(** C3, amended.  The integrator adds the full trapezoid
    ((a0+a1)/2)*(d1-d0) of consecutive sample pairs, never a clipped
    one, for as long as the running cumulative depth [sp], the sum of
    the depth differences as the machine accumulates it from 0, is below
    the threshold: when [sp] is below the threshold before each of the
    intervals 0 to [k] and not below it after interval [k], the result
    is the running volume through interval [k], which holds the whole
    trapezoid of interval [k].  For the two rows of the constant-area
    curve [(0,A),(D,A)] and a threshold [t] with 0 < t and D not below
    t, the result is the binary64 product A*D whenever (A + A)/2 and
    0 + A*D are computed without change (A + A does not overflow, A*D
    is not the negative zero).  With threshold 0 the result is 0 for
    every list of rows. *)
Theorem full_intervals_until_running_depth_reaches
    (float : string -> option PrimFloat.float) :
  (forall (rows : list string)
          (curve : list (PrimFloat.float * PrimFloat.float))
          (threshold : PrimFloat.float) (k : nat)
          (d : PrimFloat.float * PrimFloat.float),
      rows_read_as64 float rows curve ->
      (S k < List.length curve)%nat ->
      (forall j, (j <= k)%nat ->
                 PrimFloat.ltb (running_depth64 curve j) threshold = true) ->
      PrimFloat.ltb (running_depth64 curve (S k)) threshold = false ->
      integrate64 float rows threshold 0 0
        = Ok (running_volume64 curve (S k)) /\
      running_volume64 curve (S k) =
        running_volume64 curve k +
        trapezoid64 (nth k curve d) (nth (S k) curve d)) /\
  (forall (row0 row1 : string) (A D t : PrimFloat.float),
      rows_read_as64 float [row0; row1] [(0, A); (D, A)] ->
      PrimFloat.ltb 0 t = true ->
      PrimFloat.ltb D t = false ->
      (A + A) / 2 = A -> 0 + A * D = A * D ->
      integrate64 float [row0; row1] t 0 0 = Ok (A * D)) /\
  (forall rows : list string, integrate64 float rows 0 0 0 = Ok 0).
Proof.
  split; [|split].
  - intros rows curve threshold k d Hrows Hlen Hbelow Hreach. split.
    + apply (loop_follows_running64 float rows curve threshold k);
        assumption.
    + apply running_last64. exact Hlen.
  - intros row0 row1 A D t Hrows Ht HD Hmean Hvol.
    assert (Hsub : D - 0 = D) by apply sub_zero_unchanged.
    assert (Hadd : 0 + D = D) by (apply (zero_add_unchanged D t); assumption).
    assert (Hdepth : running_depth64 [(0, A); (D, A)] 1 = D).
    { unfold running_depth64, FloatingPoint.running_depth. cbn.
      rewrite Hsub. exact Hadd. }
    assert (Hvolume : running_volume64 [(0, A); (D, A)] 1 = A * D).
    { unfold running_volume64, FloatingPoint.running_volume,
        FloatingPoint.trapezoid. cbn.
      rewrite Hsub, Hmean. exact Hvol. }
    rewrite <- Hvolume.
    apply (loop_follows_running64 float [row0; row1] [(0, A); (D, A)] t 0).
    + exact Hrows.
    + simpl. lia.
    + intros j Hj. replace j with 0%nat by lia. exact Ht.
    + rewrite Hdepth. exact HD.
  - intro rows. apply loop_stops64. reflexivity.
Qed.

Lemma full_intervals_until_running_depth_reaches_witness :
  (integrate64 decimal_binary64
     ["curve1 Storage 0 100"; "curve1 1 100"; "curve1 2 300";
      "curve1 4 300"]%string 1.5 0 0
     = Ok (running_volume64 tabular_curve 2) /\
   running_volume64 tabular_curve 2 =
     running_volume64 tabular_curve 1 +
     trapezoid64 (nth 1 tabular_curve (0, 0)) (nth 2 tabular_curve (0, 0))) /\
  integrate64 decimal_binary64 ["c 0 40"; "c 5 40"]%string 0.5 0 0
    = Ok (40 * 5) /\
  integrate64 decimal_binary64 rounding_rows 0 0 0 = Ok 0.
Proof.
  destruct (full_intervals_until_running_depth_reaches decimal_binary64)
    as (Hfull & Hconst & Hzero).
  split; [|split].
  - apply (Hfull _ tabular_curve 1.5 1%nat (0, 0)).
    + unfold rows_read_as64, FloatingPoint.rows_read_as, tabular_curve.
      repeat (constructor; [split; reflexivity|]). constructor.
    + simpl. lia.
    + intros j Hj. destruct j as [|[|j]]; [reflexivity | reflexivity | lia].
    + reflexivity.
  - apply (Hconst "c 0 40"%string "c 5 40"%string 40 5 0.5).
    + unfold rows_read_as64, FloatingPoint.rows_read_as.
      repeat (constructor; [split; reflexivity|]). constructor.
    + reflexivity.
    + reflexivity.
    + reflexivity.
    + reflexivity.
  - apply Hzero.
Defined.

End IntegratorClaims.

Section IntegratorProperties64.

Import CentralBasinApproach FloatingPoint.

Local Open Scope float_scope.

(** X7.  For curve rows whose last two tokens read as (depth, area)
    samples, the integration loop returns exactly when the threshold is
    not above 0 or the running cumulative depth, as the machine
    accumulates it over the samples, is at some point not below the
    threshold; in every other case it runs off the end of the rows and
    raises IndexError. *)
Theorem integration_returns_iff_running_depth_reaches
    (float : string -> option PrimFloat.float) (rows : list string)
    (curve : list (PrimFloat.float * PrimFloat.float))
    (threshold : PrimFloat.float) :
  rows_read_as64 float rows curve ->
  ((exists v, integrate64 float rows threshold 0 0 = Ok v) <->
   (PrimFloat.ltb 0 threshold = false \/
    exists j, (j < List.length curve)%nat /\
              PrimFloat.ltb (running_depth64 curve j) threshold = false)) /\
  ((forall v, integrate64 float rows threshold 0 0 <> Ok v) ->
   integrate64 float rows threshold 0 0 = Raise IndexError).
Proof.
  intro Hrows.
  destruct (loop_returns_or_runs_off64 float rows curve threshold Hrows)
    as [[Hreach Hret] | (H0 & Hall & Hraise)].
  - split.
    + split; intro; assumption.
    + intro Hno. destruct Hret as [v Hv]. destruct (Hno v Hv).
  - split.
    + split.
      * intros [v Hv]. rewrite Hraise in Hv. discriminate.
      * intros [Hz | (j & Hj & Hreach)].
        -- rewrite H0 in Hz. discriminate.
        -- rewrite (Hall j Hj) in Hreach. discriminate.
    + intros _. exact Hraise.
Qed.

Lemma integration_returns_iff_running_depth_reaches_witness :
  ((exists v,
       integrate64 decimal_binary64
         ["c1 Storage 0 100"; "c1 0.4 100"; "c1 1.7 100"]%string
         0x1.b333333333333p+0 0 0 = Ok v) <->
   (PrimFloat.ltb 0 0x1.b333333333333p+0 = false \/
    exists j, (j < 3)%nat /\
              PrimFloat.ltb
                (running_depth64
                   [(0, 100); (0x1.999999999999ap-2, 100);
                    (0x1.b333333333333p+0, 100)] j)
                0x1.b333333333333p+0 = false)) /\
  ((forall v,
       integrate64 decimal_binary64
         ["c1 Storage 0 100"; "c1 0.4 100"; "c1 1.7 100"]%string
         0x1.b333333333333p+0 0 0 <> Ok v) ->
   integrate64 decimal_binary64
     ["c1 Storage 0 100"; "c1 0.4 100"; "c1 1.7 100"]%string
     0x1.b333333333333p+0 0 0 = Raise IndexError).
Proof.
  apply (integration_returns_iff_running_depth_reaches decimal_binary64
           ["c1 Storage 0 100"; "c1 0.4 100"; "c1 1.7 100"]%string
           [(0, 100); (0x1.999999999999ap-2, 100);
            (0x1.b333333333333p+0, 100)]
           0x1.b333333333333p+0).
  unfold rows_read_as64, FloatingPoint.rows_read_as.
  repeat (constructor; [split; reflexivity|]). constructor.
Defined.

(** X18.  The volume of a node with a curve, end to end: when the
    storage line of the node holds 'TABULAR' and, as its sixth token, a
    curve name, and the lines led by that name read as a curve over
    which the running cumulative depth is below the threshold before
    each of the intervals 0 to [k] and not below it after interval
    [k], the volume of the spec is the running volume through interval
    [k], every interval entered as a full trapezoid. *)
Theorem tabular_node_volume_follows_running_depth
    (float : string -> option PrimFloat.float) (read_model : list string)
    (name line relevant_curve : string)
    (curve : list (PrimFloat.float * PrimFloat.float))
    (threshold : PrimFloat.float) (k : nat) :
  storage_line read_model name = Ok line ->
  contains "TABULAR" line = true ->
  py_index (split line) 5 = Ok relevant_curve ->
  split relevant_curve = [relevant_curve] ->
  rows_read_as64 float
    (filter (fun l =>
               match split l with
               | tok :: _ => String.eqb tok relevant_curve
               | [] => false
               end)
            read_model)
    curve ->
  (S k < List.length curve)%nat ->
  (forall j, (j <= k)%nat ->
             PrimFloat.ltb (running_depth64 curve j) threshold = true) ->
  PrimFloat.ltb (running_depth64 curve (S k)) threshold = false ->
  storage_volume64 float read_model (name, threshold) =
    Ok (running_volume64 curve (S k)).
Proof.
  intros Hline Htab Hrc Htok Hrows Hlen Hbelow Hreach.
  unfold storage_volume64, FloatingPoint.storage_volume. cbn [fst snd].
  rewrite Hline, Htab, Hrc.
  rewrite (first_token_is_filter read_model relevant_curve Htok).
  apply (loop_follows_running64 float _ curve threshold k); assumption.
Qed.

Lemma tabular_node_volume_follows_running_depth_witness :
  storage_volume64 decimal_binary64 tabular_inp ("SU1"%string, 1.5) =
  Ok (running_volume64 tabular_curve 2).
Proof.
  apply (tabular_node_volume_follows_running_depth decimal_binary64
           tabular_inp "SU1" "SU1 0 5 0 TABULAR curve1 0 0" "curve1"
           tabular_curve 1.5 1).
  - reflexivity.
  - reflexivity.
  - reflexivity.
  - reflexivity.
  - unfold rows_read_as64, FloatingPoint.rows_read_as, tabular_curve.
    repeat (constructor; [split; reflexivity|]). constructor.
  - simpl. lia.
  - intros j Hj. destruct j as [|[|j]]; [reflexivity | reflexivity | lia].
  - reflexivity.
Defined.

End IntegratorProperties64.

Section DryWeather.

Import CentralBasinApproach.

Variables capacity wwtp_capacity time_step : Q.

Local Abbreviation step := (cas_step capacity wwtp_capacity time_step).
Local Abbreviation loop := (cas_loop capacity wwtp_capacity time_step).

(** A sample that is not above the treatment capacity takes the branch
    that leaves the overflow total alone. *)
Lemma dry_step (st : cas_state) (q : Q) :
  0 <= time_step -> q <= wwtp_capacity -> 0 <= available_storage st ->
  total_cso_volume (step st q) = total_cso_volume st.
Proof.
  intros Hts Hq Hav.
  assert (Hprod : q * time_step <= wwtp_capacity * time_step)
    by (apply Qmult_le_compat_r; assumption).
  assert (Hab : q * time_step <=
                wwtp_capacity * time_step + available_storage st) by lra.
  rewrite (cas_step_absorb capacity _ _ _ _ Hab). reflexivity.
Qed.

Lemma dry_loop (inflow : list Q) :
  0 <= capacity -> 0 <= time_step ->
  Forall (fun q => q <= wwtp_capacity) inflow ->
  forall st,
    in_range capacity st ->
    total_cso_volume (loop inflow st) = total_cso_volume st.
Proof.
  intros Hcap Hts Hall.
  induction Hall as [|q inflow Hq _ IH]; intros st Hst.
  - reflexivity.
  - unfold cas_loop in *. simpl.
    rewrite (IH (step st q)).
    + apply dry_step; [assumption | assumption | apply Hst].
    + apply in_range_step; assumption.
Qed.

End DryWeather.

Section DryWeatherProperties.

Import CentralBasinApproach.

(** X1.  Dry weather: when no inflow sample exceeds the treatment
    capacity (capacity and time step not negative), the method returns
    an overflow of exactly 0, with one recorded storage value per
    sample, each between 0 and the capacity. *)
Theorem no_overflow_below_treatment_capacity
    (self : Central_Basin_Approach)
    (capacity wwtp_capacity time_step : Q) (inflow : list Q) :
  total_system_volume self = Some capacity ->
  0 <= capacity ->
  0 <= time_step ->
  Forall (fun q => q <= wwtp_capacity) inflow ->
  exists tracked,
    run_CAS_model self wwtp_capacity inflow time_step = Ok (0, tracked) /\
    List.length tracked = List.length inflow /\
    Forall (fun v => 0 <= v <= capacity) tracked.
Proof.
  intros Hself Hcap Hts Hall.
  unfold run_CAS_model. rewrite Hself. simpl.
  eexists. split; [|split].
  - rewrite (dry_loop capacity wwtp_capacity time_step inflow Hcap Hts Hall
               (cas_init capacity) (in_range_init capacity Hcap)).
    reflexivity.
  - rewrite tracked_length_loop. reflexivity.
  - apply (in_range_loop capacity wwtp_capacity time_step Hcap inflow
             (cas_init capacity) (in_range_init capacity Hcap)).
Qed.

Lemma no_overflow_below_treatment_capacity_witness :
  exists tracked,
    run_CAS_model {| model_path := "model.inp";
                     total_system_volume := Some 100 |}
                  3 [1; 3; 0; 2] 900 = Ok (0, tracked) /\
    List.length tracked = 4%nat /\
    Forall (fun v => 0 <= v <= 100) tracked.
Proof.
  apply (no_overflow_below_treatment_capacity
           {| model_path := "model.inp"; total_system_volume := Some 100 |}
           100 3 900 [1; 3; 0; 2]).
  - reflexivity.
  - discriminate.
  - discriminate.
  - repeat constructor; discriminate.
Defined.

End DryWeatherProperties.

Section CreateModelCallProperties.

Import CentralBasinApproach CreateModelCall.

(** X6.  Where a call of [create_CAS_model] assigns the capacity.  When
    [storage] is a non-empty list of pairs and the file is read, the
    object holds a capacity after the call, whether the loop returned or
    raised, and [run_CAS_model] on it returns normally.  In every other
    case (a guard returns its AttributeError object, [storage[0]] raises
    IndexError on the empty list, or reading the file raises) the call
    returns no capacity and leaves the object as it was. *)
Theorem capacity_is_assigned_once_the_file_is_read
    (float : string -> option Q) (self : Central_Basin_Approach)
    (read : option (list string)) (storage : storage_arg) :
  let ended := create_CAS_model_call float self read storage in
  (reaches_loop read storage = true ->
   (exists total, total_system_volume (fst ended) = Some total) /\
   forall wwtp_capacity inflow time_step,
     exists overflow tracked,
       run_CAS_model (fst ended) wwtp_capacity inflow time_step
         = Ok (overflow, tracked)) /\
  (reaches_loop read storage = false ->
   fst ended = self /\ forall total, snd ended <> Returned total).
Proof.
  intro ended. subst ended. split.
  - intro Hreach.
    destruct storage as [|[|stor rest]|]; try discriminate.
    destruct read as [read_model|]; [|discriminate].
    unfold create_CAS_model_call, create_CAS_model.
    destruct (storage_loop float read_model (stor :: rest) 0) as [total r].
    cbn [fst]. split.
    + exists total. reflexivity.
    + intros wwtp_capacity inflow time_step.
      unfold run_CAS_model. cbn. eexists. eexists. reflexivity.
  - intro Hreach.
    destruct storage as [|[|stor rest]|];
      try (split; [reflexivity | intros total H; discriminate H]).
    destruct read as [read_model|]; [discriminate|].
    split; [reflexivity | intros total H; discriminate H].
Qed.

Lemma capacity_is_assigned_once_the_file_is_read_witness :
  (exists total,
      total_system_volume
        (fst (create_CAS_model_call decimal_float
                {| model_path := "model.inp"; total_system_volume := None |}
                (Some example_inp)
                (ListOfPairs [("SU2"%string, 2); ("SU9"%string, 1)])))
      = Some total) /\
  forall wwtp_capacity inflow time_step,
    exists overflow tracked,
      run_CAS_model
        (fst (create_CAS_model_call decimal_float
                {| model_path := "model.inp"; total_system_volume := None |}
                (Some example_inp)
                (ListOfPairs [("SU2"%string, 2); ("SU9"%string, 1)])))
        wwtp_capacity inflow time_step
      = Ok (overflow, tracked).
Proof.
  apply (proj1 (capacity_is_assigned_once_the_file_is_read decimal_float
                  {| model_path := "model.inp";
                     total_system_volume := None |}
                  (Some example_inp)
                  (ListOfPairs [("SU2"%string, 2); ("SU9"%string, 1)]))).
  reflexivity.
Defined.

End CreateModelCallProperties.

Section ReturnedValues.

Import Heuristics.

(** X9.  What [run_model] hands back.  With an empty rule dictionary the
    second assertion raises IndexError, whatever the engine and before
    any control step.  Whenever the call returns, the value is the table
    or the 'Pump ... Not Specified in Rules, please add' object naming
    one of the enumerated pumps: whatever rule evaluation raised, for
    whatever reason, the object names the pump and not the cause. *)
Theorem returned_object_names_an_enumerated_pump
    (W : Type) (advance : links -> W -> W) (depth : W -> nodes)
    (total_inflow : W -> string -> Q) (current_time : W -> Z)
    (rule_dictionary : rule_dict)
    (list_of_pumps list_of_outfalls : list string)
    (n_steps : nat) (w0 : W) (links0 : links) :
  let outcome :=
    run_model W advance depth total_inflow current_time rule_dictionary
              list_of_pumps list_of_outfalls n_steps w0 links0 in
  (rule_dictionary = [] -> outcome = Raise IndexError) /\
  (forall v, outcome = Ok v ->
   (exists df, v = Frame df) \/
   (exists pump, In pump list_of_pumps /\
                 v = ExceptionObject (not_specified pump))).
Proof.
  intro outcome. subst outcome. unfold run_model. split.
  - intros ->. reflexivity.
  - intros v Hv.
    destruct (py_index (map snd rule_dictionary) 0); [|discriminate].
    cbn in Hv.
    assert (Hloop : forall n w l res times e,
               sim_loop W advance depth total_inflow current_time
                        rule_dictionary list_of_pumps list_of_outfalls
                        n w l res times = inr e ->
               exists pump, In pump list_of_pumps /\ e = not_specified pump).
    { induction n as [|n IH]; intros w l res times e H; simpl in H.
      - discriminate.
      - destruct (control_step rule_dictionary (depth (advance l w))
                               list_of_pumps l) as [l'|e'] eqn:Ecs.
        + apply (IH _ _ _ _ _ H).
        + injection H as <-.
          apply (control_step_error_names_pump _ _ _ _ _ Ecs). }
    destruct (sim_loop W advance depth total_inflow current_time
                       rule_dictionary list_of_pumps list_of_outfalls
                       n_steps w0 links0
                       (map (fun _ => []) list_of_outfalls) [])
      as [[res times]|e] eqn:E.
    + left. injection Hv as <-. eexists. reflexivity.
    + right. injection Hv as <-.
      destruct (Hloop _ _ _ _ _ _ E) as (pump & Hin & ->).
      exists pump. split; [exact Hin | reflexivity].
Qed.

Lemma returned_object_names_an_enumerated_pump_witness :
  (exists df, ExceptionObject (not_specified "p_2_1") = Frame df) \/
  (exists pump,
      In pump ["p10_1"; "p_2_1"]%string /\
      ExceptionObject (not_specified "p_2_1")
        = ExceptionObject (not_specified pump)).
Proof.
  apply (proj2 (returned_object_names_an_enumerated_pump
                  nat (fun _ w => S w)
                  (fun _ => table_depth [("j_10"%string, 1 # 2)])
                  (fun _ _ => 0) (fun w => Z.of_nat w)
                  example_rules ["p10_1"; "p_2_1"]%string ["out1"]%string
                  2 0%nat (fun _ => 0))
               (ExceptionObject (not_specified "p_2_1"))).
  reflexivity.
Defined.

End ReturnedValues.
